(** * OpenTogetherTube: the room HTTP API and the shared room types

    A shallow embedding of [server/api/room.ts] (the handlers of the
    room routes and their error boundary) and of
    [common/models/types.ts] (roles, visibility, queue modes, the room
    state and its client-visible projection), with the properties the
    specification states about them.

    Conventions.
    - A JavaScript string is a [string]; one [ascii] stands for one code
      unit.  [s.length] is [String.length s].
    - A request field is taken at the type the handler expects of it
      (a string, a boolean, an object) or is missing, which is an
      [option]; the truthiness test of the source ([if (x)],
      [x && ...]) is written out with [truthy_str] and the like.
    - Logging is left out: it does not reach the response.
    - The handlers run in a small monad over the process state (the
      resident rooms and the log of collaborator calls); a JavaScript
      exception keeps the state reached when it was thrown.
    - Collaborators that live outside these files (room manager
      creation, client manager, rate limiter, storage, the room's own
      request processing) are fields of a record [Env]. *)

From Stdlib Require Import String Ascii List ZArith Lia Bool.
From Stdlib Require Import Sorting.Sorted Sorting.Permutation.
Import ListNotations.
Local Open Scope string_scope.
Local Open Scope Z_scope.

(** ** common/models/types.ts *)

Module Types.

Inductive Visibility := Public | Unlisted | Private.

(** The string value of each member of [enum Visibility]. *)
Definition visibility_value (v : Visibility) : string :=
  match v with
  | Public => "public"
  | Unlisted => "unlisted"
  | Private => "private"
  end.

Inductive QueueMode := Manual | Vote | Loop | Dj.

Definition queueMode_value (q : QueueMode) : string :=
  match q with
  | Manual => "manual"
  | Vote => "vote"
  | Loop => "loop"
  | Dj => "dj"
  end.

Inductive PlayerStatus := none | ready | buffering | error.

(** [enum Role], in declaration order. *)
Inductive Role :=
| Administrator
| Moderator
| TrustedUser
| RegisteredUser
| UnregisteredUser
| Owner.

(** The numeric value the enum gives each role. *)
Definition role_value (r : Role) : Z :=
  match r with
  | Administrator => 4
  | Moderator => 3
  | TrustedUser => 2
  | RegisteredUser => 1
  | UnregisteredUser => 0
  | Owner => -1
  end.

(** Comparison of two roles as the numbers they are at run time. *)
Definition role_gtb (a b : Role) : bool := role_value b <? role_value a.

(** Modelled from the spec: the role hierarchy of the Client data
    model, highest first ("Owner > Administrator > Moderator >
    TrustedUser > RegisteredUser > UnregisteredUser").  The source
    only has the numeric enum above. *)
Definition hierarchy : list Role :=
  [Owner; Administrator; Moderator; TrustedUser; RegisteredUser;
   UnregisteredUser].

(** Modelled from the spec: the position of a role in [hierarchy],
    counted from the bottom: a higher number is a higher role. *)
Definition rank (r : Role) : nat :=
  match r with
  | Owner => 5
  | Administrator => 4
  | Moderator => 3
  | TrustedUser => 2
  | RegisteredUser => 1
  | UnregisteredUser => 0
  end.

(** [above a b]: [a] is strictly higher than [b] in the hierarchy. *)
Definition above (a b : Role) : bool := Nat.ltb (rank b) (rank a).

Definition ClientId := string.
Definition AuthToken := string.

(** [models/user]'s [User], as far as the handlers read it. *)
Record User := { user_ident : Z; username : string }.

(** [./video]'s [Video]: the identity fields, which are the ones the
    handlers build ([{ service, id }]). *)
Record Video := { service : string; video_id : string }.

Record ClientInfo := {
  ci_id : ClientId;
  ci_username : option string;
  ci_user_id : option Z;
  ci_status : option PlayerStatus
}.

Record RoomUserInfo := {
  rui_id : ClientId;
  rui_name : string;
  rui_isLoggedIn : bool;
  rui_status : PlayerStatus;
  rui_role : Role
}.

(** [declare class Grants { masks: any }]: a permission bit mask per
    role value. *)
Record Grants := { masks : list (Z * Z) }.

(** [interface RoomState] with everything it extends ([RoomSettings],
    [RoomOptions], [RoomStateComputed]).  [playbackPosition] is a
    number of seconds; only integral values are represented. *)
Record RoomState := {
  (* RoomSettings *)
  title : string;
  description : string;
  visibility : Visibility;
  queueMode : QueueMode;
  grants : Grants;
  (* RoomOptions *)
  name : string;
  isTemporary : bool;
  owner : option User;
  userRoles : list (Role * list Z);
  (* RoomStateComputed *)
  hasOwner : bool;
  voteCounts : list (string * Z);
  (* RoomState *)
  currentSource : option Video;
  queue : list Video;
  isPlaying : bool;
  playbackPosition : Z;
  users : list RoomUserInfo;
  votes : list (string * list ClientId)
}.

(** The property names of [RoomState]. *)
Inductive RoomStateKey :=
| Ktitle | Kdescription | Kvisibility | KqueueMode | Kgrants
| Kname | KisTemporary | Kowner | KuserRoles
| KhasOwner | KvoteCounts
| KcurrentSource | Kqueue | KisPlaying | KplaybackPosition | Kusers
| Kvotes.

(** The value found under a property name. *)
Inductive RoomStateValue :=
| VString (s : string)
| VVisibility (v : Visibility)
| VQueueMode (q : QueueMode)
| VGrants (g : Grants)
| VBool (b : bool)
| VOwner (o : option User)
| VUserRoles (m : list (Role * list Z))
| VVoteCounts (m : list (string * Z))
| VSource (v : option Video)
| VQueue (q : list Video)
| VNumber (n : Z)
| VUsers (u : list RoomUserInfo)
| VVotes (m : list (string * list ClientId)).

Definition prop (k : RoomStateKey) (s : RoomState) : RoomStateValue :=
  match k with
  | Ktitle => VString (title s)
  | Kdescription => VString (description s)
  | Kvisibility => VVisibility (visibility s)
  | KqueueMode => VQueueMode (queueMode s)
  | Kgrants => VGrants (grants s)
  | Kname => VString (name s)
  | KisTemporary => VBool (isTemporary s)
  | Kowner => VOwner (owner s)
  | KuserRoles => VUserRoles (userRoles s)
  | KhasOwner => VBool (hasOwner s)
  | KvoteCounts => VVoteCounts (voteCounts s)
  | KcurrentSource => VSource (currentSource s)
  | Kqueue => VQueue (queue s)
  | KisPlaying => VBool (isPlaying s)
  | KplaybackPosition => VNumber (playbackPosition s)
  | Kusers => VUsers (users s)
  | Kvotes => VVotes (votes s)
  end.

(** [type RoomStateSyncable =
      Omit<RoomState, "owner" | "votes" | "userRoles" | "grants">]:
    the keys the type leaves out. *)
Definition omitted (k : RoomStateKey) : bool :=
  match k with
  | Kowner | Kvotes | KuserRoles | Kgrants => true
  | _ => false
  end.

(** A key of [RoomStateSyncable]. *)
Definition syncable (k : RoomStateKey) : bool := negb (omitted k).

(** Modelled from the spec: the room's serialization to one client
    (the [Room] class is not among the sources).  After a request the
    changed top-level properties [dirty] are sent; the properties
    outside [RoomStateSyncable] are left out, and the grants are added
    back only for a client that holds [manage-permissions]. *)
Definition visible_to (canManagePermissions : bool) (k : RoomStateKey) : bool :=
  syncable k ||
  (canManagePermissions && match k with Kgrants => true | _ => false end).

(** Modelled from the spec: the sync payload for one client, "only the
    changed top-level properties", each with its current value. *)
Definition syncPayload (canManagePermissions : bool)
    (dirty : list RoomStateKey) (s : RoomState)
  : list (RoomStateKey * RoomStateValue) :=
  map (fun k => (k, prop k s))
      (filter (visible_to canManagePermissions) dirty).

End Types.


(** ** common/models/messages.ts (the requests the handlers build) *)

Module Messages.
Import Types.

(** [enum RoomRequestType], in declaration order. *)
Inductive RoomRequestType :=
| JoinRequest | LeaveRequest | PlaybackRequest | SkipRequest
| SeekRequest | AddRequest | RemoveRequest | OrderRequest
| VoteRequest | PromoteRequest | UpdateUser | ChatRequest
| UndoRequest | ApplySettingsRequest.

(** [ServerMessageEvent], the echo of an applied request that an undo
    refers to: the kind of the request and the acting user. *)
Record ServerMessageEvent := {
  ev_request : RoomRequestType;
  ev_user_name : string;
  ev_user_isLoggedIn : bool
}.

(** What a client may send as grants ([Grants | any]). *)
Definition RawGrants := list (Z * Z).

(** The [settings] of an [ApplySettingsRequest] as the PATCH handler
    passes them: the request body after the handler has moved
    [permissions] to [grants] and wrapped it in [new Grants(...)]. *)
Record Settings := {
  s_title : option string;
  s_description : option string;
  s_visibility : option string;
  s_queueMode : option string;
  s_grants : Grants;
  s_claim : bool
}.

(** The members of the [RoomRequest] union that [server/api/room.ts]
    constructs. *)
Inductive RoomRequest :=
| ApplySettingsReq (client : ClientId) (settings : Settings)
| UndoReq (token : option AuthToken) (client : ClientId)
       (event : option ServerMessageEvent)
| VoteReq (token : option AuthToken) (client : ClientId)
          (video : Video) (add : bool).

Definition request_type (r : RoomRequest) : RoomRequestType :=
  match r with
  | ApplySettingsReq _ _ => ApplySettingsRequest
  | UndoReq _ _ _ => UndoRequest
  | VoteReq _ _ _ _ => VoteRequest
  end.

End Messages.


(** ** server/api/room.ts *)

Module Api.
Import Types Messages.

(** *** Values thrown and responses sent *)

(** What a handler can throw.  [OttException] and its subclass
    [BadApiArgumentException] are the instances of [OttException];
    [UnknownError] is any other [Error]. *)
Inductive Thrown :=
| OttException (name message : string)
| BadApiArgumentException (arg reason : string)
| UnknownError (name message stack : string).

(** The [error] member of a failure body. *)
Inductive ErrorJson :=
| ErrText (text : string)
| ErrObject (name : option string) (message : string)
            (arg reason : option string).

(** One element of the array [GET /list] answers with. *)
Record RoomListEntry := {
  e_name : string;
  e_title : string;
  e_description : string;
  e_isTemporary : bool;
  e_visibility : Visibility;
  e_queueMode : QueueMode;
  e_currentSource : option Video;
  e_users : nat
}.

Inductive Json :=
| JSuccess                              (* { success: true } *)
| JFailure (error : option ErrorJson)   (* { success: false, error? } *)
| JRooms (rooms : list RoomListEntry).

(** [res.status(n).json(b)]; [res.json(b)] alone answers 200. *)
Record Response := { status : Z; body : Json }.

Definition ok (b : Json) : Response := {| status := 200; body := b |}.

(** *** The process state *)

(** A [Room] object: its state and the roster of connected clients
    ([room.realusers]). *)
Record Room := { state : RoomState; realusers : list ClientInfo }.

(** [room.owner = u] *)
Definition set_owner (u : User) (r : Room) : Room :=
  let s := state r in
  {| state :=
       {| title := title s; description := description s;
          visibility := visibility s; queueMode := queueMode s;
          grants := grants s; name := name s;
          isTemporary := isTemporary s; owner := Some u;
          userRoles := userRoles s; hasOwner := hasOwner s;
          voteCounts := voteCounts s; currentSource := currentSource s;
          queue := queue s; isPlaying := isPlaying s;
          playbackPosition := playbackPosition s; users := users s;
          votes := votes s |};
     realusers := realusers r |}.

(** The body of [POST /create]. *)
Record CreateBody := {
  cb_name : option string;
  cb_visibility : option string;
  cb_temporary : option bool;
  cb_isTemporary : option bool;
  cb_title : option string;
  cb_description : option string;
  cb_queueMode : option string;
  cb_owner : option User
}.

Definition with_isTemporary (b : option bool) (c : CreateBody) : CreateBody :=
  {| cb_name := cb_name c; cb_visibility := cb_visibility c;
     cb_temporary := cb_temporary c; cb_isTemporary := b;
     cb_title := cb_title c; cb_description := cb_description c;
     cb_queueMode := cb_queueMode c; cb_owner := cb_owner c |}.

Definition with_visibility (v : option string) (c : CreateBody) : CreateBody :=
  {| cb_name := cb_name c; cb_visibility := v;
     cb_temporary := cb_temporary c; cb_isTemporary := cb_isTemporary c;
     cb_title := cb_title c; cb_description := cb_description c;
     cb_queueMode := cb_queueMode c; cb_owner := cb_owner c |}.

(** The argument of [roommanager.CreateRoom]: the body, and the
    [owner] member of the object passed, which is the logged-in user
    when there is one ([{ ...req.body, owner: req.user }]) and otherwise
    whatever [owner] the body itself carries ([req.body] as it is). *)
Record CreateOptions := { co_body : CreateBody; co_owner : option User }.

(** The body of [PATCH /:name]. *)
Record PatchBody := {
  pb_title : option string;
  pb_description : option string;
  pb_visibility : option string;
  pb_queueMode : option string;
  pb_permissions : option RawGrants;
  pb_grants : option RawGrants;
  pb_claim : bool
}.

(** The body of [POST /:name/undo]: [data], and [data.event]. *)
Record UndoBody := { ub_data : option (option ServerMessageEvent) }.

(** The body of [POST] and [DELETE /:name/vote]. *)
Record VoteBody := { vb_service : option string; vb_id : option string }.

(** An express request, as far as the handlers read it. *)
Record Req (B : Type) := {
  ip : string;
  apikey : option string;        (* req.get("apikey") *)
  user : option User;            (* req.user *)
  token : option AuthToken;      (* req.token *)
  param_name : string;           (* req.params.name *)
  reqbody : B
}.
Arguments ip {B}.
Arguments apikey {B}.
Arguments user {B}.
Arguments token {B}.
Arguments param_name {B}.
Arguments reqbody {B}.

(** The outcome of [rateLimiter.consume]: it resolves, rejects with an
    [Error], or rejects with the limiter's own result (the caller is
    over the limit). *)
Inductive Consumption :=
| Consumed (info : Z)
| ConsumeFailed (e : Thrown)
| LimitReached (info : Z).

(** A call that leaves this file. *)
Inductive Call :=
| CallConsume (ip : string) (points : Z)
| CallSetRateLimitHeaders (info : Z)
| CallHandleRateLimit (info : Z)
| CallCreateRoom (options : CreateOptions)
| CallGetRoom (name : string)
| CallGetClient (token : option AuthToken) (name : string)
| CallProcessRequest (room : string) (request : RoomRequest)
| CallMakeRoomRequest (client : ClientId) (request : RoomRequest)
| CallSyncUser (room : string) (client : ClientId)
| CallUpdateRoom (room : Room).

(** [roommanager.rooms] and the calls made so far, oldest first. *)
Record World := { rooms : list Room; calls : list Call }.

(** The collaborators and the configuration. *)
Record Env := {
  (* process.env.OPENTOGETHERTUBE_API_KEY *)
  api_key : option string;
  (* the message BadApiArgumentException builds from arg and reason *)
  bad_api_message : string -> string -> string;
  (* what roommanager.GetRoom throws for a name it cannot resolve *)
  room_not_found : string -> Thrown;
  (* message and stack of the TypeError of reading a property of
     undefined *)
  type_error_message : string;
  type_error_stack : string;
  (* new Grants(...) *)
  new_Grants : option RawGrants -> Grants;
  (* rateLimiter.consume(ip, points) *)
  consume : string -> Z -> Consumption;
  (* the response handleRateLimit writes *)
  handleRateLimit : Z -> Response;
  (* roommanager.CreateRoom(options) *)
  CreateRoom : CreateOptions -> list Room -> option Thrown * list Room;
  (* clientmanager.getClient(token, roomName), read for its id *)
  getClient : option AuthToken -> string -> Thrown + ClientId;
  (* room.processRequest(request) *)
  processRequest : Room -> RoomRequest -> option Thrown * Room;
  (* client.makeRoomRequest(request) *)
  makeRoomRequest :
    ClientId -> RoomRequest -> list Room -> option Thrown * list Room;
  (* storage.updateRoom(room) *)
  updateRoom : Room -> option Thrown
}.

(** *** The handler monad *)

Inductive Result (A : Type) :=
| Return (a : A)
| Throw (e : Thrown).
Arguments Return {A}.
Arguments Throw {A}.

Definition M (A : Type) : Type := World -> Result A * World.

Definition ret {A} (a : A) : M A := fun w => (Return a, w).

Definition throw {A} (e : Thrown) : M A := fun w => (Throw e, w).

Definition bind {A B} (m : M A) (k : A -> M B) : M B :=
  fun w =>
    match m w with
    | (Return a, w') => k a w'
    | (Throw e, w') => (Throw e, w')
    end.

Notation "x <- m ;; k" := (bind m (fun x => k))
  (at level 61, m at next level, right associativity).
Notation "m ;; k" := (bind m (fun _ => k))
  (at level 61, right associativity).

Definition emit (c : Call) : M unit :=
  fun w => (Return tt, {| rooms := rooms w; calls := calls w ++ [c] |}).

Definition get_rooms : M (list Room) := fun w => (Return (rooms w), w).

Definition put_rooms (l : list Room) : M unit :=
  fun w => (Return tt, {| rooms := l; calls := calls w |}).

(** Raise when the collaborator reported an exception. *)
Definition rethrow (r : option Thrown) : M unit :=
  match r with
  | Some e => throw e
  | None => ret tt
  end.

(** *** Helpers for JavaScript tests *)

(** Truthiness of a value that is [undefined] or a string. *)
Definition truthy_str (v : option string) : bool :=
  match v with
  | Some s => negb (s =? "")%string
  | None => false
  end.

(** Truthiness of a value that is [undefined] or a boolean. *)
Definition truthy_bool (v : option bool) : bool :=
  match v with
  | Some b => b
  | None => false
  end.

Definition is_some {A} (v : option A) : bool :=
  match v with
  | Some _ => true
  | None => false
  end.

(** [a === b] for two values that are [undefined] or strings. *)
Definition strict_eq (a b : option string) : bool :=
  match a, b with
  | None, None => true
  | Some x, Some y => (x =? y)%string
  | _, _ => false
  end.

(** [list.includes(v)] for a list of strings. *)
Definition includes (l : list string) (v : option string) : bool :=
  match v with
  | Some s => existsb (String.eqb s) l
  | None => false
  end.

(** [lo <= c <= hi] on code units: a range [lo-hi] of a character class. *)
Definition in_range (lo hi c : ascii) : bool :=
  (nat_of_ascii lo <=? nat_of_ascii c)%nat &&
  (nat_of_ascii c <=? nat_of_ascii hi)%nat.

Fixpoint all_chars (p : ascii -> bool) (s : string) : bool :=
  match s with
  | EmptyString => true
  | String c s' => p c && all_chars p s'
  end.

(** The character class [[A-za-z0-9_-]] of the handler's pattern. *)
Definition name_class (c : ascii) : bool :=
  in_range "A" "z" c || in_range "a" "z" c || in_range "0" "9" c ||
  Ascii.eqb c "_" || Ascii.eqb c "-".

(** [/^[A-za-z0-9_-]+$/.exec(s)] finds a match. *)
Definition name_pattern (s : string) : bool :=
  negb (s =? "")%string && all_chars name_class s.

(** *** Constants *)

Definition RESERVED_ROOM_NAMES : list string := ["list"; "create"; "generate"].

Definition VALID_ROOM_VISIBILITY : list string :=
  [visibility_value Public; visibility_value Unlisted;
   visibility_value Private].

Definition VALID_ROOM_QUEUE_MODE : list string :=
  [queueMode_value Manual; queueMode_value Vote; queueMode_value Loop;
   queueMode_value Dj].

(** [`${list}`]: the elements joined by commas. *)
Fixpoint join_comma (l : list string) : string :=
  match l with
  | [] => ""
  | [s] => s
  | s :: rest => s ++ "," ++ join_comma rest
  end.

Definition visibility_eqb (a b : Visibility) : bool :=
  match a, b with
  | Public, Public | Unlisted, Unlisted | Private, Private => true
  | _, _ => false
  end.

(** *** GET /list *)

(** The object built for one room in the loop of the handler. *)
Definition room_entry (room : Room) : RoomListEntry :=
  {| e_name := name (state room);
     e_title := title (state room);
     e_description := description (state room);
     e_isTemporary := isTemporary (state room);
     e_visibility := visibility (state room);
     e_queueMode := queueMode (state room);
     e_currentSource := currentSource (state room);
     e_users := length (users (state room)) |}.

(** The loop over [roommanager.rooms]. *)
Fixpoint collect (isAuthorized : bool) (l : list Room) : list RoomListEntry :=
  match l with
  | [] => []
  | room :: rest =>
      if negb (visibility_eqb (visibility (state room)) Public)
         && negb isAuthorized
      then collect isAuthorized rest
      else room_entry room :: collect isAuthorized rest
  end.

(** The comparison [_.orderBy(rooms, ["users", "name"], ["desc", "asc"])]
    sorts by: [a] may stay in front of [b] when it has more users, or as
    many and a name that is not greater. *)
Definition stays_before (a b : RoomListEntry) : bool :=
  match Nat.compare (e_users a) (e_users b) with
  | Gt => true
  | Lt => false
  | Eq =>
      match String.compare (e_name a) (e_name b) with
      | Gt => false
      | _ => true
      end
  end.

Fixpoint insert_entry (x : RoomListEntry) (l : list RoomListEntry)
  : list RoomListEntry :=
  match l with
  | [] => [x]
  | y :: l' =>
      if stays_before x y then x :: y :: l' else y :: insert_entry x l'
  end.

(** [_.orderBy] is a stable sort (ties keep their original order); it
    is written here as the insertion sort that gives the same array. *)
Definition orderBy (l : list RoomListEntry) : list RoomListEntry :=
  fold_right insert_entry [] l.

(** The replies the handlers write themselves. *)
Definition invalid_apikey : Response :=
  {| status := 400; body := JFailure (Some (ErrText "apikey is invalid")) |}.

Definition unauthorized_claim : Response :=
  {| status := 401;
     body := JFailure (Some (ErrObject None
               "Must be logged in to claim room ownership." None None)) |}.

Definition update_failed : Response :=
  {| status := 500; body := JFailure None |}.

Definition unknown_failure : Response :=
  {| status := 500;
     body := JFailure (Some (ErrObject (Some "Unknown")
               "An unknown error occured. Try again later." None None)) |}.

Section Handlers.
Variable env : Env.

(** The handler reads [roommanager.rooms] and changes nothing. *)
Definition listRooms (req : Req unit) (all : list Room) : Response :=
  let isAuthorized := strict_eq (apikey req) (api_key env) in
  if truthy_str (apikey req) && negb isAuthorized then invalid_apikey
  else
    let rooms := collect isAuthorized all in
    let rooms := orderBy rooms in
    ok (JRooms rooms).

(** *** POST /create *)

(** [await roommanager.CreateRoom(options)] *)
Definition call_CreateRoom (options : CreateOptions) : M unit :=
  emit (CallCreateRoom options) ;;
  l <- get_rooms ;;
  let (err, l') := CreateRoom env options l in
  put_rooms l' ;;
  rethrow err.

Definition createRoom (req : Req CreateBody) : M Response :=
  let body := reqbody req in
  let name := match cb_name body with Some s => s | None => "" end in
  if negb (truthy_str (cb_name body)) then
    throw (BadApiArgumentException "name" "missing")
  else if includes RESERVED_ROOM_NAMES (cb_name body) then
    throw (BadApiArgumentException "name" "not allowed (reserved)")
  else if (String.length name <? 3)%nat then
    throw (BadApiArgumentException "name"
             "not allowed (too short, must be at least 3 characters)")
  else if (32 <? String.length name)%nat then
    throw (BadApiArgumentException "name"
             "not allowed (too long, must be at most 32 characters)")
  else if negb (name_pattern name) then
    throw (BadApiArgumentException "name" "not allowed (invalid characters)")
  else if truthy_str (cb_visibility body)
          && negb (includes VALID_ROOM_VISIBILITY (cb_visibility body)) then
    throw (BadApiArgumentException "visibility"
             ("must be one of " ++ join_comma VALID_ROOM_VISIBILITY))
  else
    let points := 50 in
    let body :=
      match cb_temporary body with
      | Some t => with_isTemporary (Some t) body
      | None => body
      end in
    let '(body, points) :=
      if negb (truthy_bool (cb_isTemporary body))
      then (with_isTemporary (Some false) body, points * 4)
      else (body, points) in
    let body :=
      if negb (truthy_str (cb_visibility body))
      then with_visibility (Some (visibility_value Public)) body
      else body in
    emit (CallConsume (ip req) points) ;;
    match consume env (ip req) points with
    | ConsumeFailed e => throw e
    | LimitReached info =>
        emit (CallHandleRateLimit info) ;;
        ret (handleRateLimit env info)
    | Consumed info =>
        emit (CallSetRateLimitHeaders info) ;;
        match user req with
        | Some u => call_CreateRoom {| co_body := body; co_owner := Some u |}
        | None =>
            call_CreateRoom {| co_body := body; co_owner := cb_owner body |}
        end ;;
        ret (ok JSuccess)
    end.

(** *** PATCH /:name *)

Fixpoint find_room (n : string) (l : list Room) (i : nat)
  : option (nat * Room) :=
  match l with
  | [] => None
  | room :: rest =>
      if (name (state room) =? n)%string then Some (i, room)
      else find_room n rest (S i)
  end.

(** Modelled from the spec: [roommanager.GetRoom(name)] answers the
    room of that name or fails with the manager's not-found error (the
    manager is not among the sources).  A permanent room the manager
    would load from storage on demand counts as resident here.  The
    result is the room together with its place among the resident
    rooms, which stands for the reference to the object. *)
Definition GetRoom (n : string) : M (nat * Room) :=
  emit (CallGetRoom n) ;;
  l <- get_rooms ;;
  match find_room n l 0 with
  | Some found => ret found
  | None => throw (room_not_found env n)
  end.

Fixpoint replace_nth (i : nat) (r : Room) (l : list Room) : list Room :=
  match l, i with
  | [], _ => []
  | _ :: rest, O => r :: rest
  | x :: rest, S i' => x :: replace_nth i' r rest
  end.

(** A mutation of the room object at place [i] becomes visible to
    everyone holding the reference. *)
Definition store_room (i : nat) (r : Room) : M unit :=
  l <- get_rooms ;;
  put_rooms (replace_nth i r l).

(** [clientmanager.getClient(token, name)], read for [client.id]. *)
Definition call_getClient (t : option AuthToken) (n : string) : M ClientId :=
  emit (CallGetClient t n) ;;
  match getClient env t n with
  | inl e => throw e
  | inr client => ret client
  end.

(** The loop over [room.realusers]: the first client whose [user_id]
    is the owner's id. *)
Fixpoint owner_client (uid : Z) (l : list ClientInfo) : option ClientId :=
  match l with
  | [] => None
  | c :: rest =>
      match ci_user_id c with
      | Some i => if i =? uid then Some (ci_id c) else owner_client uid rest
      | None => owner_client uid rest
      end
  end.

Definition patchRoom (req : Req PatchBody) : M Response :=
  let body := reqbody req in
  if truthy_str (pb_visibility body)
     && negb (includes VALID_ROOM_VISIBILITY (pb_visibility body)) then
    throw (BadApiArgumentException "visibility"
             ("must be one of " ++ join_comma VALID_ROOM_VISIBILITY))
  else if truthy_str (pb_queueMode body)
          && negb (includes VALID_ROOM_QUEUE_MODE (pb_queueMode body)) then
    throw (BadApiArgumentException "queueMode"
             ("must be one of " ++ join_comma VALID_ROOM_QUEUE_MODE))
  else
    let raw :=
      if is_some (pb_permissions body) then pb_permissions body
      else pb_grants body in
    let settings :=
      {| s_title := pb_title body; s_description := pb_description body;
         s_visibility := pb_visibility body;
         s_queueMode := pb_queueMode body;
         s_grants := new_Grants env raw; s_claim := pb_claim body |} in
    found <- GetRoom (param_name req) ;;
    let '(i, room) := found in
    (if pb_claim body then
       if isTemporary (state room) then
         throw (BadApiArgumentException "claim" "Can't claim temporary rooms.")
       else if is_some (owner (state room)) then
         throw (BadApiArgumentException "claim" "Room already has owner.")
       else ret tt
     else ret tt) ;;
    client <- call_getClient (token req) (param_name req) ;;
    let roomRequest := ApplySettingsReq client settings in
    emit (CallProcessRequest (name (state room)) roomRequest) ;;
    let (err, room) := processRequest env room roomRequest in
    store_room i room ;;
    rethrow err ;;
    if negb (isTemporary (state room)) then
      claimed <-
        (if pb_claim body && negb (is_some (owner (state room))) then
           match user req with
           | Some u =>
               let room := set_owner u room in
               store_room i room ;;
               match owner_client (user_ident u) (realusers room) with
               | Some c => emit (CallSyncUser (name (state room)) c)
               | None => ret tt
               end ;;
               ret (room, None)
           | None => ret (room, Some unauthorized_claim)
           end
         else ret (room, None)) ;;
      let '(room, early) := claimed in
      match early with
      | Some response => ret response
      | None =>
          emit (CallUpdateRoom room) ;;
          match updateRoom env room with
          | Some _ => ret update_failed
          | None => ret (ok JSuccess)
          end
      end
    else ret (ok JSuccess).

(** *** POST /:name/undo, POST and DELETE /:name/vote *)

(** [await client.makeRoomRequest(request)] *)
Definition call_makeRoomRequest (client : ClientId) (request : RoomRequest)
  : M unit :=
  emit (CallMakeRoomRequest client request) ;;
  l <- get_rooms ;;
  let (err, l') := makeRoomRequest env client request l in
  put_rooms l' ;;
  rethrow err.

Definition undoEvent (req : Req UndoBody) : M Response :=
  client <- call_getClient (token req) (param_name req) ;;
  match ub_data (reqbody req) with
  | None =>
      throw (UnknownError "TypeError" (type_error_message env)
               (type_error_stack env))
  | Some event =>
      let request := UndoReq (token req) client event in
      call_makeRoomRequest client request ;;
      ret (ok JSuccess)
  end.

Definition vote (add : bool) (req : Req VoteBody) : M Response :=
  if negb (truthy_str (vb_service (reqbody req))) then
    throw (BadApiArgumentException "service" "missing")
  else if negb (truthy_str (vb_id (reqbody req))) then
    throw (BadApiArgumentException "id" "missing")
  else
    let service := match vb_service (reqbody req) with Some s => s | None => "" end in
    let id := match vb_id (reqbody req) with Some s => s | None => "" end in
    client <- call_getClient (token req) (param_name req) ;;
    call_makeRoomRequest client
      (VoteReq (token req) client {| service := service; video_id := id |} add) ;;
    ret (ok JSuccess).

Definition addVote : Req VoteBody -> M Response := vote true.
Definition removeVote : Req VoteBody -> M Response := vote false.

(** *** The error boundary *)

Definition errorHandler (err : Thrown) : Response :=
  match err with
  | BadApiArgumentException arg reason =>
      {| status := 400;
         body := JFailure (Some (ErrObject (Some "BadApiArgumentException")
                   (bad_api_message env arg reason) (Some arg) (Some reason))) |}
  | OttException n m =>
      if (n =? "BadApiArgumentException")%string then
        {| status := 400;
           body := JFailure (Some (ErrObject (Some "BadApiArgumentException")
                     m None None)) |}
      else
        {| status := 400;
           body := JFailure (Some (ErrObject (Some n) m None None)) |}
  | UnknownError _ _ _ => unknown_failure
  end.

(** [try { await handler(req, res, next) } catch (e) { errorHandler(...) }] *)
Definition guarded (handler : M Response) (w : World) : Response * World :=
  match handler w with
  | (Return response, w') => (response, w')
  | (Throw e, w') => (errorHandler e, w')
  end.

(** *** The router *)

Inductive ApiRequest :=
| GetList (req : Req unit)
| PostCreate (req : Req CreateBody)
| PatchName (req : Req PatchBody)
| PostUndo (req : Req UndoBody)
| PostVote (req : Req VoteBody)
| DeleteVote (req : Req VoteBody).

Definition handler_of (r : ApiRequest) : M Response :=
  match r with
  | GetList req => fun w => (Return (listRooms req (rooms w)), w)
  | PostCreate req => createRoom req
  | PatchName req => patchRoom req
  | PostUndo req => undoEvent req
  | PostVote req => addVote req
  | DeleteVote req => removeVote req
  end.

Definition route (r : ApiRequest) (w : World) : Response * World :=
  guarded (handler_of r) w.

(** The requests of a list served one after the other; the responses
    come out in the same order. *)
Fixpoint serve (rs : list ApiRequest) (w : World) : list Response * World :=
  match rs with
  | [] => ([], w)
  | r :: rest =>
      let (response, w') := route r w in
      let (responses, w'') := serve rest w' in
      (response :: responses, w'')
  end.

End Handlers.

End Api.


(** ** Concrete rooms, collaborators and requests *)

Module Examples.
Import Types Messages Api.

Definition alice : User := {| user_ident := 7; username := "alice" |}.

Definition viewer (i : ClientId) : RoomUserInfo :=
  {| rui_id := i; rui_name := "guest"; rui_isLoggedIn := false;
     rui_status := ready; rui_role := UnregisteredUser |}.

(** A room with an empty queue. *)
Definition room_of (n : string) (v : Visibility) (temporary : bool)
    (o : option User) (us : list RoomUserInfo) : Room :=
  {| state :=
       {| title := n; description := ""; visibility := v;
          queueMode := Manual; grants := {| masks := [] |}; name := n;
          isTemporary := temporary; owner := o; userRoles := [];
          hasOwner := is_some o; voteCounts := []; currentSource := None;
          queue := []; isPlaying := false; playbackPosition := 0;
          users := us; votes := [] |};
     realusers := [] |}.

(** Collaborators under which nothing fails: the limiter lets requests through, the
    client is known, the room processes the request without changing,
    the storage writes.  The API key is [k]. *)
Definition calm (k : option string) : Env :=
  {| api_key := k;
     bad_api_message := fun arg reason => arg ++ " " ++ reason;
     room_not_found := fun n => OttException "RoomNotFoundException" n;
     type_error_message := "Cannot read properties of undefined";
     type_error_stack := "TypeError: at undoEvent";
     new_Grants := fun raw =>
       {| masks := match raw with Some m => m | None => [] end |};
     consume := fun _ points => Consumed points;
     handleRateLimit := fun _ =>
       {| status := 429; body := JFailure (Some (ErrText "Too many requests")) |};
     CreateRoom := fun _ l => (None, l);
     getClient := fun _ _ => inr "client-1";
     processRequest := fun room _ => (None, room);
     makeRoomRequest := fun _ _ l => (None, l);
     updateRoom := fun _ => None |}.

Definition request {B} (k : option string) (u : option User) (n : string)
    (b : B) : Req B :=
  {| ip := "10.0.0.1"; apikey := k; user := u; token := Some "t0k3n";
     param_name := n; reqbody := b |}.

Definition create_body (n : string) : CreateBody :=
  {| cb_name := Some n; cb_visibility := None; cb_temporary := None;
     cb_isTemporary := None; cb_title := None; cb_description := None;
     cb_queueMode := None; cb_owner := None |}.

Definition patch_body (v : option string) (claim : bool) : PatchBody :=
  {| pb_title := None; pb_description := None; pb_visibility := v;
     pb_queueMode := None; pb_permissions := None; pb_grants := None;
     pb_claim := claim |}.

Definition world_of (l : list Room) : World := {| rooms := l; calls := [] |}.

(** Two resident rooms: a public permanent one with one viewer, and a
    private one. *)
Definition lounge : Room :=
  room_of "lounge" Public false None [viewer "client-1"].

Definition hideout : Room := room_of "hideout" Private false None [].

(** A temporary room. *)
Definition popup : Room := room_of "popup" Unlisted true None [].

(** A permanent room that has an owner. *)
Definition studio : Room := room_of "studio" Public false (Some alice) [].

End Examples.


(** ** Predicates used to state the properties *)

Module Spec.
Import Types Messages Api.

(** Two states that differ at most in the properties
    [RoomStateSyncable] omits. *)
Definition same_syncable (s1 s2 : RoomState) : Prop :=
  forall k, omitted k = false -> prop k s1 = prop k s2.

(** The character class of the specification, [[A-Za-z0-9_-]]. *)
Definition spec_name_class (c : ascii) : bool :=
  in_range "A" "Z" c || in_range "a" "z" c || in_range "0" "9" c ||
  Ascii.eqb c "_" || Ascii.eqb c "-".

(** The rule of the specification for a room name: 3 to 32 characters
    of the class, and not a reserved word. *)
Definition spec_name_ok (n : string) : bool :=
  (3 <=? String.length n)%nat && (String.length n <=? 32)%nat &&
  all_chars spec_name_class n &&
  negb (existsb (String.eqb n) ["list"; "create"; "generate"]).

(** The name checks of [createRoom], all passed. *)
Definition name_accepted (n : option string) : bool :=
  match n with
  | Some s =>
      negb (s =? "")%string && negb (existsb (String.eqb s) RESERVED_ROOM_NAMES)
      && negb (String.length s <? 3)%nat && negb (32 <? String.length s)%nat
      && name_pattern s
  | None => false
  end.

(** The visibility check shared by [createRoom] and [patchRoom]. *)
Definition visibility_accepted (v : option string) : bool :=
  negb (truthy_str v && negb (includes VALID_ROOM_VISIBILITY v)).

Definition queueMode_accepted (v : option string) : bool :=
  negb (truthy_str v && negb (includes VALID_ROOM_QUEUE_MODE v)).

(** All the checks of [createRoom] that come before the rate limiter. *)
Definition create_valid (b : CreateBody) : bool :=
  name_accepted (cb_name b) && visibility_accepted (cb_visibility b).

(** Whether [createRoom] makes the room temporary. *)
Definition create_temporary (b : CreateBody) : bool :=
  match cb_temporary b with
  | Some t => t
  | None => truthy_bool (cb_isTemporary b)
  end.

(** The points [createRoom] asks the limiter for. *)
Definition create_points (b : CreateBody) : Z :=
  if create_temporary b then 50 else 200.

(** The body [createRoom] hands to the room manager. *)
Definition create_body_sent (b : CreateBody) : CreateBody :=
  {| cb_name := cb_name b;
     cb_visibility :=
       if truthy_str (cb_visibility b) then cb_visibility b
       else Some "public";
     cb_temporary := cb_temporary b;
     cb_isTemporary :=
       if create_temporary b
       then (match cb_temporary b with
             | Some t => Some t
             | None => cb_isTemporary b
             end)
       else Some false;
     cb_title := cb_title b; cb_description := cb_description b;
     cb_queueMode := cb_queueMode b; cb_owner := cb_owner b |}.

Definition create_options (req : Req CreateBody) : CreateOptions :=
  {| co_body := create_body_sent (reqbody req);
     co_owner :=
       match user req with
       | Some u => Some u
       | None => cb_owner (reqbody req)
       end |}.

(** The order of the room list: more users first, and among rooms
    with as many users the smaller name first. *)
Definition entry_le (a b : RoomListEntry) : Prop :=
  (e_users b < e_users a)%nat \/
  (e_users a = e_users b /\ String.leb (e_name a) (e_name b) = true).

Definition is_public (room : Room) : bool :=
  visibility_eqb (visibility (state room)) Public.

(** The request presents the key the server is configured with. *)
Definition presents_valid_key (env : Env) (req : Req unit) : Prop :=
  exists k, apikey req = Some k /\ api_key env = Some k.

(** A call that writes a room to storage writes a permanent room. *)
Definition saves_permanent (c : Call) : Prop :=
  match c with
  | CallUpdateRoom room => isTemporary (state room) = false
  | _ => True
  end.

Definition is_makeRoomRequest (c : Call) : bool :=
  match c with
  | CallMakeRoomRequest _ _ => true
  | _ => false
  end.

Definition is_processRequest (c : Call) : bool :=
  match c with
  | CallProcessRequest _ _ => true
  | _ => false
  end.

(** The settings [patchRoom] passes on. *)
Definition patch_settings (env : Env) (b : PatchBody) : Settings :=
  {| s_title := pb_title b; s_description := pb_description b;
     s_visibility := pb_visibility b; s_queueMode := pb_queueMode b;
     s_grants :=
       new_Grants env
         (if is_some (pb_permissions b) then pb_permissions b
          else pb_grants b);
     s_claim := pb_claim b |}.

(** The value is supplied, not empty and not a member of the enum. *)
Definition outside_enum (valid : list string) (v : option string) : Prop :=
  exists s, v = Some s /\ s <> "" /\ ~ In s valid.

(** What [errorHandler] reads off a thrown value. *)
Definition is_ott (e : Thrown) : bool :=
  match e with
  | UnknownError _ _ _ => false
  | _ => true
  end.

Definition err_name (e : Thrown) : string :=
  match e with
  | OttException n _ => n
  | BadApiArgumentException _ _ => "BadApiArgumentException"
  | UnknownError n _ _ => n
  end.

Definition err_message (env : Env) (e : Thrown) : string :=
  match e with
  | OttException _ m => m
  | BadApiArgumentException arg reason => bad_api_message env arg reason
  | UnknownError _ m _ => m
  end.

Definition err_arg (e : Thrown) : option string :=
  match e with
  | BadApiArgumentException arg _ => Some arg
  | _ => None
  end.

Definition err_reason (e : Thrown) : option string :=
  match e with
  | BadApiArgumentException _ reason => Some reason
  | _ => None
  end.

Definition is_failure (r : Response) : bool :=
  match body r with
  | JFailure _ => true
  | _ => false
  end.

(** The two shapes of the claim: status 400 with a name and a message,
    or status 500 with the generic name and message. *)
Definition known_shape (r : Response) : Prop :=
  status r = 400 /\
  exists n m a rs, body r = JFailure (Some (ErrObject (Some n) m a rs)).

Definition unknown_shape (r : Response) : Prop := r = unknown_failure.


Definition is_CreateRoom (c : Call) : bool :=
  match c with
  | CallCreateRoom _ => true
  | _ => false
  end.

End Spec.


(** ** The grants of a room *)

Module Permissions.
Import Types.

(** Modelled from the spec: the grants of a room ([server/permissions]
    is not among the sources): "a set of permission masks keyed by role
    (and optionally by individual user id, overriding role defaults)".
    A mask is a set of bits, one per permission; the masks of the roles
    are keyed by the numeric value of the role, as [Grants.masks]. *)
Record GrantTable := {
  role_masks : Grants;
  user_masks : list (Z * Z)
}.

Fixpoint lookup_mask (key : Z) (l : list (Z * Z)) : option Z :=
  match l with
  | [] => None
  | (k, m) :: rest => if k =? key then Some m else lookup_mask key rest
  end.

(** The mask a role has of its own, if it has one. *)
Definition own_mask (g : GrantTable) (r : Role) : option Z :=
  lookup_mask (role_value r) (masks (role_masks g)).

(** Modelled from the spec: a role and then its ancestors in the
    hierarchy, the nearest first: the roles at or below it, from the
    highest down. *)
Definition lineage (r : Role) : list Role :=
  filter (fun x => Nat.leb (rank x) (rank r)) hierarchy.

(** The roles above [lo] up to [hi], from the highest down. *)
Definition between (hi lo : Role) : list Role :=
  filter (fun x => Nat.ltb (rank lo) (rank x) && Nat.leb (rank x) (rank hi))
         hierarchy.

(** The first mask defined along a list of roles. *)
Fixpoint first_mask (g : GrantTable) (l : list Role) : option Z :=
  match l with
  | [] => None
  | r :: rest =>
      match own_mask g r with
      | Some m => Some m
      | None => first_mask g rest
      end
  end.

(** The explicit override of a user, if the actor is a user that has
    one. *)
Definition user_override (g : GrantTable) (actorUserId : option Z)
  : option Z :=
  match actorUserId with
  | Some u => lookup_mask u (user_masks g)
  | None => None
  end.

(** Modelled from the spec: [isAllowed(actorRole, actorUserId,
    permission)], "Resolution order: explicit per-user override, else
    per-role mask, else the role hierarchy's nearest defined ancestor,
    else deny".  The permission is the index of its bit. *)
Definition isAllowed (g : GrantTable) (actorRole : Role)
    (actorUserId : option Z) (permission : Z) : bool :=
  match user_override g actorUserId with
  | Some m => Z.testbit m permission
  | None =>
      match first_mask g (lineage actorRole) with
      | Some m => Z.testbit m permission
      | None => false
      end
  end.

(** Permission [p] is explicitly overridden between [lo] and [hi]: a
    role above [lo] up to [hi] has a mask of its own that leaves the
    permission out. *)
Definition overridden (g : GrantTable) (hi lo : Role) (p : Z) : Prop :=
  exists r m,
    above r lo = true /\ above r hi = false /\
    own_mask g r = Some m /\ Z.testbit m p = false.

(** A table where moderators have a mask of their own. *)
Definition sample_table : GrantTable :=
  {| role_masks := {| masks := [(0, 1); (2, 3); (3, 2)] |};
     user_masks := [(7, 0)] |}.

End Permissions.


(** ** The room's part in a settings update *)

Module RoomModel.
Import Types Messages Api.

(** The bounds on the lengths of the title and of the description; the
    spec names the check and not the numbers. *)
Record Limits := { max_title : nat; max_description : nat }.

Definition parse_visibility (s : string) : option Visibility :=
  if (s =? visibility_value Public)%string then Some Public
  else if (s =? visibility_value Unlisted)%string then Some Unlisted
  else if (s =? visibility_value Private)%string then Some Private
  else None.

Definition parse_queueMode (s : string) : option QueueMode :=
  if (s =? queueMode_value Manual)%string then Some Manual
  else if (s =? queueMode_value Vote)%string then Some Vote
  else if (s =? queueMode_value Loop)%string then Some Loop
  else if (s =? queueMode_value Dj)%string then Some Dj
  else None.

(** A member that is not supplied passes; a supplied one is checked. *)
Definition member_ok {A} (check : A -> bool) (v : option A) : bool :=
  match v with
  | Some x => check x
  | None => true
  end.

(** Modelled from the spec: "validates each field (visibility/queueMode
    enums, string lengths) independently": the first member of the
    settings that fails its own check, if there is one. *)
Definition first_invalid (lim : Limits) (s : Settings) : option string :=
  if negb (member_ok (fun t => (String.length t <=? max_title lim)%nat)
             (s_title s)) then Some "title"
  else if negb (member_ok
                  (fun d => (String.length d <=? max_description lim)%nat)
                  (s_description s)) then Some "description"
  else if negb (member_ok (fun v => is_some (parse_visibility v))
                  (s_visibility s)) then Some "visibility"
  else if negb (member_ok (fun q => is_some (parse_queueMode q))
                  (s_queueMode s)) then Some "queueMode"
  else None.

Definition or_else {A} (v : option A) (d : A) : A :=
  match v with
  | Some x => x
  | None => d
  end.

(** Modelled from the spec: "merges into Room attributes": the supplied
    members replace the room's, the others stay. *)
Definition merge_settings (s : Settings) (room : Room) : Room :=
  let st := state room in
  {| state :=
       {| title := or_else (s_title s) (title st);
          description := or_else (s_description s) (description st);
          visibility :=
            or_else (match s_visibility s with
                     | Some v => parse_visibility v
                     | None => None
                     end) (visibility st);
          queueMode :=
            or_else (match s_queueMode s with
                     | Some q => parse_queueMode q
                     | None => None
                     end) (queueMode st);
          grants := s_grants s; name := name st;
          isTemporary := isTemporary st; owner := owner st;
          userRoles := userRoles st; hasOwner := hasOwner st;
          voteCounts := voteCounts st; currentSource := currentSource st;
          queue := queue st; isPlaying := isPlaying st;
          playbackPosition := playbackPosition st; users := users st;
          votes := votes st |};
     realusers := realusers room |}.

(** Modelled from the spec: [Room.processRequest] for an
    [ApplySettingsRequest] (the [Room] class is not among the sources).
    The acting client is resolved and its permission checked first
    ([permits], which answers the error of a client that is absent or not
    permitted); then the settings are validated member by member and
    merged.  "Validation failures never mutate state": a request that
    fails leaves the room as it was. *)
Definition applySettings (lim : Limits)
    (permits : Room -> ClientId -> option Thrown)
    (room : Room) (client : ClientId) (s : Settings)
  : option Thrown * Room :=
  match permits room client with
  | Some e => (Some e, room)
  | None =>
      match first_invalid lim s with
      | Some member => (Some (OttException "ValidationError" member), room)
      | None => (None, merge_settings s room)
      end
  end.

(** The collaborators of [env], with the room above answering the
    settings requests. *)
Definition with_room (lim : Limits)
    (permits : Room -> ClientId -> option Thrown) (env : Env) : Env :=
  {| api_key := api_key env;
     bad_api_message := bad_api_message env;
     room_not_found := room_not_found env;
     type_error_message := type_error_message env;
     type_error_stack := type_error_stack env;
     new_Grants := new_Grants env;
     consume := consume env;
     handleRateLimit := handleRateLimit env;
     CreateRoom := CreateRoom env;
     getClient := getClient env;
     processRequest := fun room r =>
       match r with
       | ApplySettingsReq client s => applySettings lim permits room client s
       | _ => processRequest env room r
       end;
     makeRoomRequest := makeRoomRequest env;
     updateRoom := updateRoom env |}.

(** The settings of the body break a rule: a visibility or queue mode
    that is supplied and outside its enum, or a title or description
    longer than its bound. *)
Definition bad_settings (lim : Limits) (b : PatchBody) : Prop :=
  (exists v, pb_visibility b = Some v /\ ~ In v VALID_ROOM_VISIBILITY) \/
  (exists q, pb_queueMode b = Some q /\ ~ In q VALID_ROOM_QUEUE_MODE) \/
  (exists t, pb_title b = Some t /\ (max_title lim < String.length t)%nat) \/
  (exists d, pb_description b = Some d /\
             (max_description lim < String.length d)%nat).

(** Bounds and a room that lets every client in, for the examples. *)
Definition short : Limits := {| max_title := 8; max_description := 16 |}.

Definition everyone : Room -> ClientId -> option Thrown := fun _ _ => None.

End RoomModel.


(** ** common/models/types.ts: what is stored *)

Module Storable.
Import Types.

(** [type RoomStateStorable =
      Omit<RoomState, "hasOwner" | "votes" | "voteCounts" | "users">]:
    the keys the type leaves out. *)
Definition not_stored (k : RoomStateKey) : bool :=
  match k with
  | KhasOwner | Kvotes | KvoteCounts | Kusers => true
  | _ => false
  end.

(** A key of [RoomStateStorable]. *)
Definition storable (k : RoomStateKey) : bool := negb (not_stored k).

End Storable.


(** ** Reading the calls of a handler *)

Module Calls.
Import Types Messages Api.

(** The [client] member of a request. *)
Definition request_client (r : RoomRequest) : ClientId :=
  match r with
  | ApplySettingsReq client _ => client
  | UndoReq _ client _ => client
  | VoteReq _ client _ _ => client
  end.

Definition is_updateRoom (c : Call) : bool :=
  match c with
  | CallUpdateRoom _ => true
  | _ => false
  end.

Definition is_syncUser (c : Call) : bool :=
  match c with
  | CallSyncUser _ _ => true
  | _ => false
  end.

(** A state with no calls made yet. *)
Definition fresh (resident : list Room) : World :=
  {| rooms := resident; calls := [] |}.

(** [req.token] and [req.params.name] of the HTTP request. *)
Definition request_token (r : ApiRequest) : option string :=
  match r with
  | GetList req => token req
  | PostCreate req => token req
  | PatchName req => token req
  | PostUndo req => token req
  | PostVote req => token req
  | DeleteVote req => token req
  end.

Definition request_room (r : ApiRequest) : string :=
  match r with
  | GetList req => param_name req
  | PostCreate req => param_name req
  | PatchName req => param_name req
  | PostUndo req => param_name req
  | PostVote req => param_name req
  | DeleteVote req => param_name req
  end.

End Calls.


(** ** More concrete collaborators and rooms *)

Module Cases.
Import Types Messages Api.

(** Collaborators as in [Examples.calm], with a room manager that
    refuses every creation and a storage that fails every write. *)
Definition refusing : Env :=
  {| api_key := None;
     bad_api_message := fun arg reason => arg ++ " " ++ reason;
     room_not_found := fun n => OttException "RoomNotFoundException" n;
     type_error_message := "Cannot read properties of undefined";
     type_error_stack := "TypeError: at undoEvent";
     new_Grants := fun raw =>
       {| masks := match raw with Some m => m | None => [] end |};
     consume := fun _ points => Consumed points;
     handleRateLimit := fun _ => update_failed;
     CreateRoom := fun _ l =>
       (Some (OttException "RoomNameTakenException" "taken"), l);
     getClient := fun _ _ => inr "client-1";
     processRequest := fun room _ => (None, room);
     makeRoomRequest := fun _ _ l => (None, l);
     updateRoom := fun _ =>
       Some (UnknownError "SequelizeConnectionError" "refused" "at query") |}.

(** The lounge with a guest and, on two connections, the user alice. *)
Definition busy_lounge : Room :=
  {| state := state Examples.lounge;
     realusers :=
       [ {| ci_id := "client-1"; ci_username := Some "guest";
            ci_user_id := None; ci_status := None |};
         {| ci_id := "client-2"; ci_username := None;
            ci_user_id := Some 7; ci_status := None |};
         {| ci_id := "client-3"; ci_username := None;
            ci_user_id := Some 7; ci_status := None |} ] |}.

End Cases.


(** ** usermanager.js *)

Module UserManager.
Import Api.

(** A row of the [User] model, as far as this file reads it. *)
Record UserRow := {
  u_id : Z;
  u_email : string;
  u_username : string;
  u_salt : string;
  u_hash : string
}.

(** [user.hash = h] *)
Definition with_hash (h : string) (u : UserRow) : UserRow :=
  {| u_id := u_id u; u_email := u_email u; u_username := u_username u;
     u_salt := u_salt u; u_hash := h |}.

(** The [where] object of a query: [{}], [{ email }] or [{ id }]. *)
Inductive Where :=
| Anyone
| ByEmail (email : string)
| ById (id : Z).

(** A promise settled: resolved with a value or rejected with an
    [Error] of the given message. *)
Inductive Settled (A : Type) :=
| Resolved (a : A)
| Rejected (message : string).
Arguments Resolved {A}.
Arguments Rejected {A}.

(** Truthiness of a value that is [undefined] or a number. *)
Definition truthy_id (id : option Z) : bool :=
  match id with
  | Some z => negb (z =? 0)
  | None => false
  end.

(** The result of [pwd.verify]. *)
Inductive VerifyResult :=
| INVALID_UNRECOGNIZED_HASH
| INVALID
| VALID_NEEDS_REHASH
| VALID
| OtherResult.

(** The second argument of a call of [done]. *)
Inductive DoneUser :=
| NotPassed
| PassedFalse
| PassedUser (u : UserRow).

(** A call [done(err, user)]; [done_err] is the message of the error. *)
Record Done := { done_err : option string; done_user : DoneUser }.

(** What a run of [authCallback] leaves behind: the call of [done], if
    one was made; the rows [user.save()] wrote; and the message of the
    error the promise of [authCallback] rejects with, if it rejects. *)
Record Outcome := {
  called : option Done;
  saved : list UserRow;
  failed : option string
}.

Section Store.
(** [User.findOne({ where })] *)
Variable findOne : Where -> Settled (option UserRow).
(** [pwd.verify(Buffer.from(salted), Buffer.from(hash))], a promise *)
Variable verify : string -> string -> Settled VerifyResult.
(** [pwd.hash(Buffer.from(salted))], a promise *)
Variable hash : string -> Settled string.
(** [user.save()], a promise: the message of the error it rejects with,
    if it does; the row is written when it resolves *)
Variable save : UserRow -> option string.

Definition getUser (email : option string) (id : option Z)
  : Settled UserRow :=
  if negb (truthy_str email) && negb (truthy_id id) then
    Rejected "Invalid parameters to find user"
  else
    let clause := Anyone in
    let clause :=
      if truthy_str email then
        ByEmail (match email with Some e => e | None => "" end)
      else if truthy_id id then
        ById (match id with Some i => i | None => 0 end)
      else clause in
    match findOne clause with
    | Rejected m => Rejected m
    | Resolved None => Rejected "User not found"
    | Resolved (Some user) => Resolved user
    end.

(** [await] of a promise that rejects outside any [try]: the function
    stops there, [done] not called, and its own promise rejects. *)
Definition uncaught (m : string) : Outcome :=
  {| called := None; saved := []; failed := Some m |}.

(** [done(err, user)] with nothing saved. *)
Definition answered (d : Done) : Outcome :=
  {| called := Some d; saved := []; failed := None |}.

(** [authCallback(email, password, done)].  Only [getUser] is awaited
    inside a [try]; [pwd.verify], [pwd.hash] and [user.save()] are
    awaited outside one. *)
Definition authCallback (email : option string) (password : string)
  : Outcome :=
  match getUser email None with
  | Rejected _ =>
      answered {| done_err := Some "Email or password is incorrect.";
                  done_user := NotPassed |}
  | Resolved user =>
      match verify (u_salt user ++ password) (u_hash user) with
      | Rejected m => uncaught m
      | Resolved INVALID_UNRECOGNIZED_HASH =>
          answered {| done_err := None; done_user := PassedFalse |}
      | Resolved INVALID =>
          answered {| done_err := Some "Email or password is incorrect.";
                      done_user := PassedFalse |}
      | Resolved VALID_NEEDS_REHASH =>
          match hash (u_salt user ++ password) with
          | Rejected m => uncaught m
          | Resolved h =>
              let user := with_hash h user in
              match save user with
              | Some m => uncaught m
              | None =>
                  {| called := Some {| done_err := None;
                                       done_user := PassedUser user |};
                     saved := [user]; failed := None |}
              end
          end
      | Resolved VALID =>
          answered {| done_err := None; done_user := PassedUser user |}
      | Resolved OtherResult =>
          {| called := None; saved := []; failed := None |}
      end
  end.

(** [serializeUser(user, done)] calls [done(null, user.id)]. *)
Definition serializeUser (user : UserRow) : Z := u_id user.

(** [deserializeUser(id, done)]: the arguments [done] is called with. *)
Definition deserializeUser (id : option Z) : option string * option UserRow :=
  match getUser None id with
  | Resolved user => (None, Some user)
  | Rejected m => (Some m, None)
  end.

End Store.

(** A connected client, as the session callbacks read it. *)
Record Client := { session_id : string; client_user : option UserRow }.

(** A room, as the session callbacks read it: [room.clients] and
    [room._dirtyProps]. *)
Record RoomJs := { clients : list Client; dirtyProps : list string }.

(** The inner loop of the callbacks: the first client of the session
    gets [client.user = v]; the flag tells whether there was one. *)
Fixpoint assign_user (sid : string) (v : option UserRow) (l : list Client)
  : list Client * bool :=
  match l with
  | [] => ([], false)
  | client :: rest =>
      if (session_id client =? sid)%string then
        ({| session_id := session_id client; client_user := v |} :: rest,
         true)
      else
        let (rest', found) := assign_user sid v rest in
        (client :: rest', found)
  end.

(** One turn of the outer loop. *)
Definition assign_in_room (sid : string) (v : option UserRow) (room : RoomJs)
  : RoomJs :=
  let (cs, found) := assign_user sid v (clients room) in
  if found then
    {| clients := cs; dirtyProps := dirtyProps room ++ ["users"] |}
  else room.

Definition onUserLogIn (user : UserRow) (sid : string) (rooms : list RoomJs)
  : list RoomJs :=
  map (assign_in_room sid (Some user)) rooms.

(** [onUserLogOut(user, session)]: the rooms, and the name
    [uniqueNamesGenerator()] gave, which becomes [session.username]. *)
Definition onUserLogOut (generated : string) (user : UserRow) (sid : string)
    (rooms : list RoomJs) : list RoomJs * string :=
  (map (assign_in_room sid None) rooms, generated).

End UserManager.


(** ** A concrete user store and rooms for the session callbacks *)

Module UserCases.
Import UserManager.

Definition digest (salted : string) : string := "h(" ++ salted ++ ")".

Definition bob : UserRow :=
  {| u_id := 3; u_email := "bob@example.org"; u_username := "bob";
     u_salt := "NaCl"; u_hash := digest "NaClhunter2" |}.

(** A store that holds [bob] alone. *)
Definition table (clause : Where) : Settled (option UserRow) :=
  match clause with
  | Anyone => Resolved (Some bob)
  | ByEmail e =>
      Resolved (if (e =? "bob@example.org")%string then Some bob else None)
  | ById i => Resolved (if i =? 3 then Some bob else None)
  end.

Definition check (salted stored : string) : Settled VerifyResult :=
  Resolved (if (stored =? digest salted)%string then VALID else INVALID).

(** A verification that finds every stored hash outdated. *)
Definition outdated (salted stored : string) : Settled VerifyResult :=
  Resolved VALID_NEEDS_REHASH.

Definition rehash (salted : string) : Settled string :=
  Resolved (digest salted).

(** A database that writes every row, and one that is down. *)
Definition written (row : UserRow) : option string := None.

Definition down (row : UserRow) : option string :=
  Some "SequelizeConnectionError".

(** A room where the session [s2] is connected twice. *)
Definition two_tabs : RoomJs :=
  {| clients :=
       [ {| session_id := "s1"; client_user := None |};
         {| session_id := "s2"; client_user := None |};
         {| session_id := "s2"; client_user := None |} ];
     dirtyProps := [] |}.

Definition elsewhere : RoomJs :=
  {| clients := [ {| session_id := "s1"; client_user := None |} ];
     dirtyProps := ["queue"] |}.

End UserCases.


(** * Properties *)

Import Types Messages Api Spec.

(** ** Tactics *)

(** Unfold the operations of the handler monad. *)
Ltac run :=
  unfold call_CreateRoom, call_getClient, call_makeRoomRequest, GetRoom,
    store_room, bind, ret, throw, emit, get_rooms, put_rooms, rethrow;
  simpl.

Ltac name_or_visibility :=
  try (exists "name"; eexists; split; [now left|reflexivity]);
  try (exists "visibility"; eexists; split; [now right|reflexivity]).

(** Case analysis on what the handler branches on. *)
Ltac plain x :=
  lazymatch x with
  | context [match _ with _ => _ end] => fail
  | _ => idtac
  end.

Ltac branch :=
  repeat match goal with
    | |- context [match ?x with _ => _ end] =>
        plain x; destruct x eqn:?; simpl in *
    end.

(** Close a goal on the calls made: each call added satisfies the
    predicate, by the branch the handler is in. *)
Ltac close_calls :=
  rewrite ?Forall_app; repeat split; try assumption;
  repeat constructor; simpl;
  repeat match goal with
    | E : negb _ = true |- _ => apply negb_true_iff in E
    end; try assumption; try reflexivity.

(** Split a membership in a list of calls written out. *)
Ltac in_calls H :=
  simpl in H;
  repeat (destruct H as [H|H];
          [try discriminate H; try (inversion H; subst; clear H)|]);
  try contradiction.

(** Every way a list of calls written out splits around one call. *)
Ltac split_calls H :=
  lazymatch type of H with
  | [] = (?b ++ _ :: _)%list => destruct b; discriminate H
  | (_ :: _) = (?b ++ _ :: _)%list =>
      let x := fresh "x" in
      let b' := fresh "b" in
      destruct b as [|x b']; simpl in H;
      [ let Hc := fresh "Hc" in
        let Ha := fresh "Ha" in
        injection H as Hc Ha; subst
      | let Hx := fresh "Hx" in
        injection H as Hx H; subst x; split_calls H ]
  end.



(** ** Roles *)

Lemma role_value_inj (a b : Role) : role_value a = role_value b -> a = b.
Proof.
  destruct a, b; simpl; intros H; solve [reflexivity | discriminate H].
Qed.

Lemma above_total (a b : Role) : a = b \/ above a b = true \/ above b a = true.
Proof. destruct a, b; auto. Qed.

Lemma above_trans (a b c : Role) :
  above a b = true -> above b c = true -> above a c = true.
Proof.
  unfold above. rewrite !Nat.ltb_lt. lia.
Qed.

Lemma above_irrefl (a : Role) : above a a = false.
Proof. unfold above. apply Nat.ltb_irrefl. Qed.

(** The hierarchy list is written highest first: [above] is exactly
    "occurs earlier in [hierarchy]". *)
Lemma hierarchy_is_rank_order :
  map rank hierarchy = [5; 4; 3; 2; 1; 0]%nat /\
  forall r, In r hierarchy.
Proof.
  split; [reflexivity|]. intros []; simpl; tauto.
Qed.

(** C2, as stated, fails: Owner is above Administrator in the
    hierarchy, but as numbers Owner (-1) does not compare above
    Administrator (4). *)
Lemma owner_not_numerically_above_administrator :
  above Owner Administrator = true /\
  role_value Owner = -1 /\ role_value Administrator = 4 /\
  ~ (role_value Owner > role_value Administrator) /\
  role_gtb Owner Administrator = false.
Proof. repeat split; simpl; lia. Qed.

Import Permissions.

Lemma lineage_split (hi lo : Role) :
  above hi lo = true -> lineage hi = (between hi lo ++ lineage lo)%list.
Proof. destruct hi, lo; intros H; solve [discriminate H | reflexivity]. Qed.

Lemma between_in (hi lo r : Role) :
  In r (between hi lo) -> above r lo = true /\ above r hi = false.
Proof.
  unfold between, above. rewrite filter_In, andb_true_iff.
  intros (_ & H1 & H2). split; [assumption|].
  apply Nat.leb_le in H2. apply Nat.ltb_ge. assumption.
Qed.

Lemma first_mask_app (g : GrantTable) (l1 l2 : list Role) :
  first_mask g (l1 ++ l2) =
  match first_mask g l1 with
  | Some m => Some m
  | None => first_mask g l2
  end.
Proof.
  induction l1 as [|r l1 IH]; simpl; [reflexivity|].
  destruct (own_mask g r); [reflexivity|assumption].
Qed.

Lemma first_mask_in (g : GrantTable) (l : list Role) (m : Z) :
  first_mask g l = Some m -> exists r, In r l /\ own_mask g r = Some m.
Proof.
  induction l as [|r l IH]; simpl; [discriminate|].
  destruct (own_mask g r) as [m'|] eqn:E.
  - intros H. inversion H; subst. exists r. auto.
  - intros H. destruct (IH H) as (r' & Hin & Hm). exists r'. auto.
Qed.

(** Grants are inherited upwards: what a role is allowed, every higher
    role is allowed too, for an actor without an override of their own,
    unless a role in between has a mask that leaves the permission
    out. *)
Lemma isAllowed_monotone (g : GrantTable) (hi lo : Role) (uid : option Z)
    (p : Z) :
  above hi lo = true ->
  user_override g uid = None ->
  ~ overridden g hi lo p ->
  isAllowed g lo uid p = true -> isAllowed g hi uid p = true.
Proof.
  intros Ha Hu Hno. unfold isAllowed. rewrite Hu.
  rewrite (lineage_split hi lo Ha), first_mask_app.
  destruct (first_mask g (between hi lo)) as [m|] eqn:E; [|trivial].
  intros _. destruct (first_mask_in g _ m E) as (r & Hin & Hm).
  destruct (between_in hi lo r Hin) as [H1 H2].
  destruct (Z.testbit m p) eqn:Hb; [reflexivity|].
  exfalso. apply Hno. exists r, m. auto.
Qed.

(** The proviso is needed: in the sample table a trusted user holds
    permission 0 and a moderator, whose own mask leaves it out, does
    not; an administrator, who has no mask, holds what a moderator
    holds. *)
Lemma own_mask_overrides :
  isAllowed sample_table TrustedUser None 0 = true /\
  isAllowed sample_table Moderator None 0 = false /\
  overridden sample_table Moderator TrustedUser 0 /\
  isAllowed sample_table Moderator None 1 = true /\
  isAllowed sample_table Administrator None 1 = true.
Proof.
  repeat split; try reflexivity.
  exists Moderator, 2. repeat split.
Qed.

(** C2 (amended): the hierarchy Owner > Administrator > Moderator >
    TrustedUser > RegisteredUser > UnregisteredUser is a strict total
    order, and grants are monotone in it: for every permission, a
    higher role is allowed what a lower role is allowed, for an actor
    without a per-user override, unless a role above the lower one up
    to the higher one has a mask of its own that leaves that permission
    out.  The numeric values of the enum are pairwise distinct and
    order the five roles other than Owner as the hierarchy does, while
    Owner has the value -1 and compares below every other role,
    Administrator included. *)
Theorem role_order :
  (above Owner Administrator = true /\
   above Administrator Moderator = true /\
   above Moderator TrustedUser = true /\
   above TrustedUser RegisteredUser = true /\
   above RegisteredUser UnregisteredUser = true) /\
  (forall a b c, above a b = true -> above b c = true -> above a c = true) /\
  (forall a b, a = b \/ above a b = true \/ above b a = true) /\
  (forall a b, above a b = true -> above b a = false) /\
  (forall g hi lo uid p,
     above hi lo = true ->
     user_override g uid = None ->
     ~ overridden g hi lo p ->
     isAllowed g lo uid p = true -> isAllowed g hi uid p = true) /\
  (forall a b, role_value a = role_value b -> a = b) /\
  (forall a b, a <> Owner -> b <> Owner -> above a b = role_gtb a b) /\
  (forall b, b <> Owner ->
     role_gtb Owner b = false /\ role_gtb b Owner = true).
Proof.
  split; [repeat split|].
  split; [apply above_trans|].
  split; [apply above_total|].
  split; [intros a b; destruct a, b; cbv; intros; congruence|].
  split; [apply isAllowed_monotone|].
  split; [apply role_value_inj|].
  split; intros a; [intros b|]; destruct a; try destruct b; cbv; intros;
    try congruence; auto.
Qed.

Lemma role_order_witness :
  isAllowed sample_table Owner (Some 3) 1 = true.
Proof.
  destruct role_order as (_ & _ & _ & _ & H & _).
  apply (H sample_table Owner Moderator (Some 3) 1); try reflexivity.
  intros (r & m & Hlo & Hhi & Hm & Hb).
  destruct r; try discriminate Hlo; try discriminate Hm.
Defined.

(** ** The state sent to clients *)

Lemma visible_without_permission (k : RoomStateKey) :
  visible_to false k = syncable k.
Proof. unfold visible_to. simpl. apply orb_false_r. Qed.

Lemma syncPayload_keys (m : bool) (dirty : list RoomStateKey) (s : RoomState)
    (k : RoomStateKey) (v : RoomStateValue) :
  In (k, v) (syncPayload m dirty s) ->
  In k dirty /\ visible_to m k = true /\ v = prop k s.
Proof.
  unfold syncPayload. rewrite in_map_iff.
  intros [k' [E H]]. inversion E; subst.
  apply filter_In in H. tauto.
Qed.

(** C3: a client without manage-permissions is sent none of the
    omitted properties (grants, owner, votes, userRoles), and two room
    states that differ only in those give it the same payload, whatever
    properties are dirty; grants reach only a client that holds
    manage-permissions. *)
Theorem sync_hides_grants (dirty : list RoomStateKey) (s1 s2 : RoomState)
    (H : same_syncable s1 s2) :
  syncPayload false dirty s1 = syncPayload false dirty s2 /\
  (forall k v, In (k, v) (syncPayload false dirty s1) -> omitted k = false) /\
  (forall m v, In (Kgrants, v) (syncPayload m dirty s1) -> m = true).
Proof.
  split; [|split].
  - unfold syncPayload. induction dirty as [|k dirty IH]; [reflexivity|].
    simpl. rewrite visible_without_permission.
    destruct (syncable k) eqn:Ek; [|exact IH].
    simpl. rewrite IH. f_equal. f_equal. apply H.
    unfold syncable in Ek. now destruct (omitted k).
  - intros k v Hin. apply syncPayload_keys in Hin.
    destruct Hin as (_ & Hv & _).
    rewrite visible_without_permission in Hv. unfold syncable in Hv.
    now destruct (omitted k).
  - intros m v Hin. apply syncPayload_keys in Hin.
    destruct Hin as (_ & Hv & _). now destruct m.
Qed.

Lemma sync_hides_grants_witness :
  let s1 := state (Examples.room_of "lounge" Public false None []) in
  let s2 := state (set_owner Examples.alice
                     (Examples.room_of "lounge" Public false None [])) in
  owner s1 <> owner s2 /\
  syncPayload false [Ktitle; Kowner; Kgrants; Kusers] s1 =
  syncPayload false [Ktitle; Kowner; Kgrants; Kusers] s2.
Proof.
  split; [discriminate|].
  apply (sync_hides_grants [Ktitle; Kowner; Kgrants; Kusers]).
  intros k Hk. destruct k; try reflexivity; discriminate Hk.
Defined.

(** ** Lists of calls *)

Lemma app_two {A} (l : list A) (a b : A) :
  ((l ++ [a]) ++ [b] = l ++ [a; b])%list.
Proof. now rewrite <- app_assoc. Qed.

(** ** POST /create *)

Section CreateRoom.
Variable env : Env.

(** A request that fails a check is answered by a
    [BadApiArgumentException] and nothing has happened. *)
Lemma createRoom_invalid (req : Req CreateBody) (w : World) :
  create_valid (reqbody req) = false ->
  exists arg reason,
    (arg = "name" \/ arg = "visibility") /\
    createRoom env req w = (Throw (BadApiArgumentException arg reason), w).
Proof.
  unfold create_valid, name_accepted, visibility_accepted, createRoom.
  destruct req as [i k u t n b]; simpl.
  destruct (cb_name b) as [s|]; simpl; rewrite ?negb_involutive; intros H;
    repeat match goal with
    | |- context [if negb ?c then _ else _] =>
        destruct c eqn:?; simpl in *; name_or_visibility
    | |- context [if ?c then _ else _] =>
        destruct c eqn:?; simpl in *; name_or_visibility
    end; name_or_visibility; try discriminate.
Qed.

(** What a request that passes the checks does, by the answer of the
    rate limiter. *)
Lemma createRoom_valid (req : Req CreateBody) (w : World) :
  create_valid (reqbody req) = true ->
  createRoom env req w =
  let points := create_points (reqbody req) in
  match consume env (ip req) points with
  | ConsumeFailed e =>
      (Throw e,
       {| rooms := rooms w; calls := calls w ++ [CallConsume (ip req) points] |})
  | LimitReached info =>
      (Return (handleRateLimit env info),
       {| rooms := rooms w;
          calls := calls w ++ [CallConsume (ip req) points;
                               CallHandleRateLimit info] |})
  | Consumed info =>
      let sent :=
        (calls w ++ [CallConsume (ip req) points;
                     CallSetRateLimitHeaders info;
                     CallCreateRoom (create_options req)])%list in
      match CreateRoom env (create_options req) (rooms w) with
      | (Some e, l) => (Throw e, {| rooms := l; calls := sent |})
      | (None, l) => (Return (ok JSuccess), {| rooms := l; calls := sent |})
      end
  end.
Proof.
  unfold create_valid, name_accepted, visibility_accepted, createRoom,
    create_options, create_points, create_body_sent, create_temporary.
  destruct req as [i k u t n b]; destruct b as [nm vis tmp ist ttl dsc qm ow].
  simpl.
  destruct nm as [s|]; simpl; rewrite ?negb_involutive;
    intros H; [|discriminate].
  destruct tmp as [[|]|], ist as [[|]|]; simpl in *;
  repeat match goal with
    | |- context [if negb ?c then _ else _] =>
        destruct c eqn:?; simpl in *; try discriminate
    | |- context [if ?c then _ else _] =>
        destruct c eqn:?; simpl in *; try discriminate
    end;
  run; destruct (consume env i _); simpl; rewrite ?app_two; try reflexivity;
  destruct u; run; unfold with_isTemporary, with_visibility; simpl;
  match goal with
  | |- context [CreateRoom env ?o ?l] =>
      destruct (CreateRoom env o l) as [[e|] l']
  end; simpl; rewrite <- ?app_assoc; reflexivity.
Qed.

End CreateRoom.

(** *** Room names *)

Lemma all_chars_weaken (p q : ascii -> bool) (s : string) :
  (forall c, p c = true -> q c = true) ->
  all_chars p s = true -> all_chars q s = true.
Proof.
  intros Hpq. induction s as [|c s IH]; simpl; [reflexivity|].
  rewrite !andb_true_iff. intros [Hc Hs]. auto.
Qed.

(** The class of the handler is the class of the specification and the
    six code units between [Z] and [a]: left bracket, backslash, right
    bracket, caret, underscore and backquote. *)
Lemma name_class_is_spec_class_or_between (c : ascii) :
  name_class c = spec_name_class c || in_range "[" "`" c.
Proof.
  destruct c as [[] [] [] [] [] [] [] []]; reflexivity.
Qed.

Lemma reserved_iff (s : string) :
  existsb (String.eqb s) RESERVED_ROOM_NAMES = true <->
  s = "list" \/ s = "create" \/ s = "generate".
Proof.
  unfold RESERVED_ROOM_NAMES. simpl.
  rewrite !orb_true_iff, !String.eqb_eq. intuition discriminate.
Qed.

(** What the name checks of the handler amount to. *)
Lemma name_accepted_iff (s : string) :
  name_accepted (Some s) = true <->
  (3 <= String.length s <= 32)%nat /\
  all_chars name_class s = true /\
  ~ (s = "list" \/ s = "create" \/ s = "generate").
Proof.
  unfold name_accepted, name_pattern.
  rewrite !andb_true_iff, !negb_true_iff, !Nat.ltb_ge.
  rewrite <- reserved_iff, not_true_iff_false.
  split.
  - intros ((((_ & Hr) & H3) & H32) & _ & Hc). tauto.
  - intros ((H3 & H32) & Hc & Hr). repeat split; try assumption.
    all: destruct s; [simpl in H3; lia | reflexivity].
Qed.

(** Every name the specification allows passes the handler's checks. *)
Lemma spec_name_ok_accepted (s : string) :
  spec_name_ok s = true -> name_accepted (Some s) = true.
Proof.
  unfold spec_name_ok. rewrite !andb_true_iff, negb_true_iff, !Nat.leb_le.
  intros (((H3 & H32) & Hc) & Hr).
  apply name_accepted_iff. split; [lia|]. split.
  - revert Hc. apply all_chars_weaken. intros c Hc.
    rewrite name_class_is_spec_class_or_between, Hc. reflexivity.
  - rewrite <- reserved_iff. unfold RESERVED_ROOM_NAMES. now rewrite Hr.
Qed.

(** A name that is too short, too long or reserved is refused with a
    [BadApiArgumentException] before anything is called. *)
Lemma createRoom_refuses_short_long_reserved (env : Env)
    (req : Req CreateBody) (w : World) (s : string) :
  cb_name (reqbody req) = Some s ->
  (String.length s < 3)%nat \/ (32 < String.length s)%nat \/
  s = "list" \/ s = "create" \/ s = "generate" ->
  exists reason,
    createRoom env req w = (Throw (BadApiArgumentException "name" reason), w).
Proof.
  intros En H.
  assert (Hn : name_accepted (Some s) = false).
  { apply not_true_iff_false. rewrite name_accepted_iff. intros (L & _ & R).
    destruct H as [H|[H|H]]; [lia|lia|tauto]. }
  unfold createRoom. rewrite En. unfold name_accepted in Hn. simpl.
  rewrite negb_involutive.
  repeat match goal with
    | |- context [if negb ?c then _ else _] =>
        destruct c eqn:?; simpl in *; try (eexists; reflexivity)
    | |- context [if ?c then _ else _] =>
        destruct c eqn:?; simpl in *; try (eexists; reflexivity)
    end; discriminate.
Qed.

(** C1, at the input where the handler departs from the rule: the name
    [room[1]] has a character outside [[A-Za-z0-9_-]], so the
    specification refuses it, yet under every behaviour of the
    collaborators it passes the checks of [createRoom] and the limiter
    is asked for it, and when the limiter lets the request through, the room manager is
    asked to create the room. *)
Theorem createRoom_accepts_bracket_name :
  let req := Examples.request None None "" (Examples.create_body "room[1]") in
  spec_name_ok "room[1]" = false /\
  (forall env w,
     In (CallConsume (ip req) 200) (calls (snd (createRoom env req w)))) /\
  createRoom (Examples.calm None) req (Examples.world_of []) =
    (Return (ok JSuccess),
     {| rooms := [];
        calls := [CallConsume "10.0.0.1" 200; CallSetRateLimitHeaders 200;
                  CallCreateRoom
                    {| co_body :=
                         with_isTemporary (Some false)
                           (with_visibility (Some "public")
                              (Examples.create_body "room[1]"));
                       co_owner := None |}] |}).
Proof.
  split; [reflexivity|]. split; [|reflexivity].
  intros env w. rewrite createRoom_valid by reflexivity.
  cbv zeta. change (create_points _) with 200.
  destruct (consume env _ 200); simpl.
  - destruct (CreateRoom env _ _) as [[e|] l]; simpl;
      apply in_or_app; right; simpl; auto.
  - apply in_or_app; right; simpl; auto.
  - apply in_or_app; right; simpl; auto.
Qed.

(** C8: the requests that fail a name or visibility check throw before
    anything is called; otherwise the rate limiter is asked first, and
    [roommanager.CreateRoom] is called only after the limiter has
    resolved: when it rejects, no room manager call is made and the
    rooms are as they were. *)
Theorem createRoom_limiter_gate (env : Env) (req : Req CreateBody) (w : World) :
  let points := create_points (reqbody req) in
  let out := createRoom env req w in
  exists evs,
    calls (snd out) = (calls w ++ evs)%list /\
    (forall o, In (CallCreateRoom o) evs ->
       create_valid (reqbody req) = true /\
       exists info,
         consume env (ip req) points = Consumed info /\
         evs = [CallConsume (ip req) points; CallSetRateLimitHeaders info;
                CallCreateRoom o]) /\
    ((forall info, consume env (ip req) points <> Consumed info) ->
       existsb is_CreateRoom evs = false /\ rooms (snd out) = rooms w) /\
    (create_valid (reqbody req) = false ->
       evs = [] /\ rooms (snd out) = rooms w /\
       exists arg reason,
         fst out = Throw (BadApiArgumentException arg reason)).
Proof.
  cbv zeta.
  destruct (create_valid (reqbody req)) eqn:V.
  - rewrite createRoom_valid by assumption. cbv zeta.
    destruct (consume env (ip req) _) as [info|e|info] eqn:C.
    + destruct (CreateRoom env _ _) as [[e|] l]; simpl;
        (eexists; split; [reflexivity|]);
        (split; [|split; [intros N; now elim (N info)|discriminate]]);
        intros o [H|[H|[H|[]]]]; try discriminate H;
        (split; [reflexivity|]); exists info; (split; [reflexivity|]);
        now inversion H.
    + simpl. eexists; split; [reflexivity|].
      split; [|split; [auto|discriminate]].
      intros o [H|[]]; discriminate H.
    + simpl. eexists; split; [reflexivity|].
      split; [|split; [auto|discriminate]].
      intros o [H|[H|[]]]; discriminate H.
  - destruct (createRoom_invalid env req w V) as (arg & reason & _ & E).
    rewrite E. simpl. exists []. rewrite app_nil_r.
    split; [reflexivity|]. split; [intros o []|].
    split; [auto|]. intros _. repeat split. now exists arg, reason.
Qed.

(** ** GET /list *)

Lemma ascii_compare_lt_trans (a b c : ascii) :
  Ascii.compare a b = Lt -> Ascii.compare b c = Lt -> Ascii.compare a c = Lt.
Proof.
  unfold Ascii.compare. rewrite !N.compare_lt_iff. apply N.lt_trans.
Qed.

Lemma ascii_compare_refl (a : ascii) : Ascii.compare a a = Eq.
Proof. unfold Ascii.compare. apply N.compare_refl. Qed.

Lemma string_compare_lt_trans (a b c : string) :
  String.compare a b = Lt -> String.compare b c = Lt -> String.compare a c = Lt.
Proof.
  revert b c. induction a as [|x a IH]; intros [|y b] [|z c]; simpl;
    try discriminate; try reflexivity.
  destruct (Ascii.compare x y) eqn:Exy; try discriminate;
    destruct (Ascii.compare y z) eqn:Eyz; try discriminate; intros H1 H2.
  - apply Ascii.compare_eq_iff in Exy, Eyz. subst.
    rewrite ascii_compare_refl. now apply IH with b.
  - apply Ascii.compare_eq_iff in Exy. subst. now rewrite Eyz.
  - apply Ascii.compare_eq_iff in Eyz. subst. now rewrite Exy.
  - now rewrite (ascii_compare_lt_trans x y z).
Qed.

Lemma string_leb_trans (a b c : string) :
  String.leb a b = true -> String.leb b c = true -> String.leb a c = true.
Proof.
  unfold String.leb.
  destruct (String.compare a b) eqn:Eab; try discriminate;
    destruct (String.compare b c) eqn:Ebc; try discriminate; intros _ _.
  - apply String.compare_eq_iff in Eab. subst. now rewrite Ebc.
  - apply String.compare_eq_iff in Eab. subst. now rewrite Ebc.
  - apply String.compare_eq_iff in Ebc. subst. now rewrite Eab.
  - now rewrite (string_compare_lt_trans a b c).
Qed.

Lemma stays_before_iff (a b : RoomListEntry) :
  stays_before a b = true <-> entry_le a b.
Proof.
  unfold stays_before, entry_le, String.leb.
  destruct (Nat.compare_spec (e_users a) (e_users b)) as [E|L|G].
  - rewrite E. destruct (String.compare (e_name a) (e_name b));
      intuition (try lia; try discriminate).
  - intuition (try lia; try discriminate).
  - intuition.
Qed.

Lemma stays_before_total (a b : RoomListEntry) :
  stays_before a b = false -> entry_le b a.
Proof.
  unfold stays_before, entry_le, String.leb.
  rewrite (String.compare_antisym (e_name b) (e_name a)).
  destruct (Nat.compare_spec (e_users a) (e_users b)) as [E|L|G].
  - destruct (String.compare (e_name a) (e_name b)); try discriminate.
    intros _. right. split; [now symmetry|reflexivity].
  - intros _. now left.
  - discriminate.
Qed.

Lemma entry_le_trans (a b c : RoomListEntry) :
  entry_le a b -> entry_le b c -> entry_le a c.
Proof.
  unfold entry_le. intros [H1|[H1 L1]] [H2|[H2 L2]]; try (left; lia).
  right. split; [lia|]. now apply string_leb_trans with (e_name b).
Qed.

Lemma insert_entry_perm (x : RoomListEntry) (l : list RoomListEntry) :
  Permutation (insert_entry x l) (x :: l).
Proof.
  induction l as [|y l IH]; simpl; [reflexivity|].
  destruct (stays_before x y); [reflexivity|].
  rewrite IH. apply perm_swap.
Qed.

Lemma orderBy_perm (l : list RoomListEntry) : Permutation (orderBy l) l.
Proof.
  induction l as [|x l IH]; simpl; [reflexivity|].
  rewrite insert_entry_perm. now constructor.
Qed.

Lemma insert_entry_HdRel (a x : RoomListEntry) (l : list RoomListEntry) :
  entry_le a x -> HdRel entry_le a l -> HdRel entry_le a (insert_entry x l).
Proof.
  intros Hax Hl. destruct l as [|y l]; simpl; [now constructor|].
  destruct (stays_before x y); constructor; [assumption|].
  now inversion Hl.
Qed.

Lemma insert_entry_sorted (x : RoomListEntry) (l : list RoomListEntry) :
  Sorted entry_le l -> Sorted entry_le (insert_entry x l).
Proof.
  induction l as [|y l IH]; simpl; intros Hs.
  - repeat constructor.
  - inversion Hs as [|? ? Hl Hy]; subst.
    destruct (stays_before x y) eqn:E.
    + constructor; [assumption|]. constructor. now apply stays_before_iff.
    + constructor; [now apply IH|].
      apply insert_entry_HdRel; [|assumption].
      now apply stays_before_total.
Qed.

(** The list [_.orderBy] returns is in order: every room comes before
    all the rooms after it. *)
Lemma orderBy_sorted (l : list RoomListEntry) :
  StronglySorted entry_le (orderBy l).
Proof.
  apply Sorted_StronglySorted.
  - intros a b c. apply entry_le_trans.
  - induction l as [|x l IH]; simpl; [constructor|].
    now apply insert_entry_sorted.
Qed.

Lemma collect_filter (isAuthorized : bool) (l : list Room) :
  collect isAuthorized l =
  map room_entry (filter (fun room => is_public room || isAuthorized) l).
Proof.
  induction l as [|room l IH]; simpl; [reflexivity|].
  unfold is_public.
  destruct (visibility_eqb (visibility (state room)) Public), isAuthorized;
    simpl; now rewrite IH.
Qed.

Lemma is_public_iff (room : Room) :
  is_public room = true <-> visibility (state room) = Public.
Proof.
  unfold is_public. destruct (visibility (state room)); simpl;
    intuition discriminate.
Qed.

Section ListRooms.
Variable env : Env.

(** A request whose key is not the configured one, when it is served:
    the answer lists exactly the public rooms, in order. *)
Lemma listRooms_not_authorized (req : Req unit) (all : list Room) :
  strict_eq (apikey req) (api_key env) = false ->
  truthy_str (apikey req) = false ->
  exists l,
    listRooms env req all = ok (JRooms l) /\
    Permutation l (map room_entry (filter is_public all)) /\
    StronglySorted entry_le l.
Proof.
  intros Hne Hf. unfold listRooms. rewrite Hne, Hf. simpl.
  eexists. split; [reflexivity|]. split; [|apply orderBy_sorted].
  rewrite orderBy_perm, collect_filter.
  erewrite filter_ext; [reflexivity|].
  intros room. apply orb_false_r.
Qed.

(** A request that presents a non-empty key other than the configured
    one is refused. *)
Lemma listRooms_invalid_key (req : Req unit) (all : list Room) (k : string) :
  apikey req = Some k -> k <> "" -> api_key env <> Some k ->
  listRooms env req all = invalid_apikey.
Proof.
  intros Hk Hne Hbad. unfold listRooms. rewrite Hk. simpl.
  apply String.eqb_neq in Hne. rewrite Hne. simpl.
  destruct (api_key env) as [k'|]; simpl; [|reflexivity].
  destruct (String.eqb_spec k k'); [congruence|reflexivity].
Qed.

(** With no key configured, a request without the header counts as
    authorized and is sent every room. *)
Lemma listRooms_no_key_configured (req : Req unit) (all : list Room) :
  api_key env = None -> apikey req = None ->
  listRooms env req all = ok (JRooms (orderBy (map room_entry all))).
Proof.
  intros He Hr. unfold listRooms. rewrite He, Hr. simpl.
  rewrite collect_filter.
  assert (E : filter (fun room => is_public room || true) all = all).
  { induction all as [|room all IH]; simpl; [reflexivity|].
    rewrite orb_true_r. now rewrite IH. }
  now rewrite E.
Qed.

End ListRooms.

(** C9, at the input where the handler departs from it: the server has
    no API key configured and the request carries no [apikey] header,
    so it presents no valid key; the handler takes it for authorized
    and the list it returns contains the private room. *)
Theorem listRooms_discloses_private_room :
  let env := Examples.calm None in
  let req := Examples.request None None "" tt in
  let hideout := Examples.room_of "hideout" Private false None [] in
  let lounge :=
    Examples.room_of "lounge" Public false None [Examples.viewer "c1"] in
  ~ presents_valid_key env req /\
  is_public hideout = false /\
  listRooms env req [hideout; lounge] =
    ok (JRooms [room_entry lounge; room_entry hideout]).
Proof.
  split; [|split; reflexivity].
  intros (k & H & _). discriminate H.
Qed.

(** ** PATCH /:name *)

Section PatchRoom.
Variable env : Env.

Lemma patchRoom_saves_permanent (req : Req PatchBody) (w : World) :
  Forall saves_permanent (calls w) ->
  Forall saves_permanent (calls (snd (patchRoom env req w))).
Proof.
  intros H. unfold patchRoom. run. branch. all: close_calls.
Qed.

(** The handler never goes through [client.makeRoomRequest]. *)
Lemma patchRoom_no_makeRoomRequest (req : Req PatchBody) (w : World) :
  Forall (fun c => is_makeRoomRequest c = false) (calls w) ->
  Forall (fun c => is_makeRoomRequest c = false)
    (calls (snd (patchRoom env req w))).
Proof.
  intros H. unfold patchRoom. run. branch. all: close_calls.
Qed.

(** A request with a non-empty visibility or queue mode outside the
    enum is refused at once. *)
Lemma patchRoom_enum_checks (req : Req PatchBody) (w : World) :
  visibility_accepted (pb_visibility (reqbody req)) = false \/
  queueMode_accepted (pb_queueMode (reqbody req)) = false ->
  exists arg reason,
    (arg = "visibility" \/ arg = "queueMode") /\
    patchRoom env req w = (Throw (BadApiArgumentException arg reason), w).
Proof.
  unfold visibility_accepted, queueMode_accepted, patchRoom.
  rewrite !negb_false_iff. intros H.
  destruct (truthy_str (pb_visibility (reqbody req))
            && negb (includes VALID_ROOM_VISIBILITY
                       (pb_visibility (reqbody req)))).
  - exists "visibility". eexists. split; [now left|reflexivity].
  - destruct H as [H|H]; [discriminate|]. rewrite H.
    exists "queueMode". eexists. split; [now right|reflexivity].
Qed.

End PatchRoom.

Lemma accepted_false_iff (valid : list string) (v : option string) :
  negb (truthy_str v && negb (includes valid v)) = false <->
  outside_enum valid v.
Proof.
  unfold outside_enum, truthy_str, includes.
  rewrite negb_false_iff, andb_true_iff, negb_true_iff.
  destruct v as [s|].
  - rewrite negb_true_iff, String.eqb_neq. split.
    + intros [Hs Hn]. exists s. repeat split; auto.
      intros Hin. apply not_true_iff_false in Hn. apply Hn.
      apply existsb_exists. exists s. split; [assumption|apply String.eqb_refl].
    + intros (s' & E & Hs & Hn). inversion E; subst s'. split; [assumption|].
      apply not_true_iff_false. intros Hex. apply Hn.
      apply existsb_exists in Hex. destruct Hex as (x & Hin & Hx).
      apply String.eqb_eq in Hx. now subst.
  - split; [intros [H _]; discriminate|intros (s & E & _); discriminate].
Qed.

(** The handler's own checks are guarded by truthiness: an empty
    visibility is supplied and is not a member of the enum, yet the
    handler does not refuse it: under every behaviour of the
    collaborators the request goes on to the room manager, and with a
    room that accepts whatever it is sent, the settings, empty
    visibility included, reach [room.processRequest] and the room is
    written to storage.  Refusing it is left to the room. *)
Lemma patchRoom_accepts_empty_visibility :
  let req :=
    Examples.request None None "lounge" (Examples.patch_body (Some "") false) in
  ~ In "" VALID_ROOM_VISIBILITY /\
  (forall env w,
     In (CallGetRoom "lounge") (calls (snd (patchRoom env req w)))) /\
  patchRoom (Examples.calm None) req (Examples.world_of [Examples.lounge]) =
    (Return (ok JSuccess),
     {| rooms := [Examples.lounge];
        calls :=
          [CallGetRoom "lounge"; CallGetClient (Some "t0k3n") "lounge";
           CallProcessRequest "lounge"
             (ApplySettingsReq "client-1"
                (patch_settings (Examples.calm None)
                   (Examples.patch_body (Some "") false)));
           CallUpdateRoom Examples.lounge] |}).
Proof.
  split; [|split; [|reflexivity]].
  - simpl. intuition discriminate.
  - intros env w. unfold patchRoom. run. branch.
    all: rewrite <- ?app_assoc; apply in_or_app; right; simpl; auto.
Qed.

(** A settings request whose visibility or queue mode is supplied, not
    empty and outside the respective enum fails with a
    [BadApiArgumentException] before the handler has called anything:
    no room is looked up, nothing is processed, merged or stored. *)
Theorem patchRoom_rejects_bad_enum (env : Env) (req : Req PatchBody) (w : World)
    (H : outside_enum VALID_ROOM_VISIBILITY (pb_visibility (reqbody req)) \/
         outside_enum VALID_ROOM_QUEUE_MODE (pb_queueMode (reqbody req))) :
  exists arg reason,
    (arg = "visibility" \/ arg = "queueMode") /\
    patchRoom env req w = (Throw (BadApiArgumentException arg reason), w).
Proof.
  apply patchRoom_enum_checks.
  unfold visibility_accepted, queueMode_accepted.
  rewrite !accepted_false_iff. exact H.
Qed.

Lemma patchRoom_rejects_bad_enum_witness :
  exists arg reason,
    (arg = "visibility" \/ arg = "queueMode") /\
    patchRoom (Examples.calm None)
      (Examples.request None None "lounge"
         (Examples.patch_body (Some "hidden") false))
      (Examples.world_of [Examples.lounge]) =
    (Throw (BadApiArgumentException arg reason),
     Examples.world_of [Examples.lounge]).
Proof.
  apply patchRoom_rejects_bad_enum.
  left. exists "hidden". split; [reflexivity|]. split; [discriminate|].
  simpl. intuition discriminate.
Defined.

(** *** Claiming a room *)

Lemma find_room_nth (n : string) (l : list Room) (k i : nat) (room : Room) :
  find_room n l k = Some (i, room) ->
  (k <= i)%nat /\ nth_error l (i - k) = Some room /\ name (state room) = n.
Proof.
  revert k. induction l as [|x l IH]; simpl; intros k; [discriminate|].
  destruct (String.eqb_spec (name (state x)) n) as [E|E].
  - intros H. inversion H; subst. rewrite Nat.sub_diag. auto.
  - intros H. apply IH in H. destruct H as (L & N & E').
    split; [lia|]. split; [|assumption].
    replace (i - k)%nat with (S (i - S k)) by lia. assumption.
Qed.

Lemma nth_error_replace_nth (i : nat) (r x : Room) (l : list Room) :
  nth_error l i = Some x -> nth_error (replace_nth i r l) i = Some r.
Proof.
  revert i. induction l as [|y l IH]; intros [|i]; simpl;
    try discriminate; auto.
Qed.

Lemma replace_nth_twice (i : nat) (r r' : Room) (l : list Room) :
  replace_nth i r' (replace_nth i r l) = replace_nth i r' l.
Proof.
  revert i. induction l as [|y l IH]; intros [|i]; simpl; try reflexivity.
  now rewrite IH.
Qed.






(** *** Settings that break a rule *)

Import RoomModel.

Lemma replace_nth_same (i : nat) (r : Room) (l : list Room) :
  nth_error l i = Some r -> replace_nth i r l = l.
Proof.
  revert i. induction l as [|x l IH]; intros [|i]; simpl;
    try discriminate; intros H.
  - now inversion H.
  - now rewrite IH.
Qed.

Lemma parse_visibility_valid (v : string) :
  ~ In v VALID_ROOM_VISIBILITY -> parse_visibility v = None.
Proof.
  unfold parse_visibility, VALID_ROOM_VISIBILITY. simpl. intros H.
  destruct (String.eqb_spec v "public"); [subst; tauto|].
  destruct (String.eqb_spec v "unlisted"); [subst; tauto|].
  destruct (String.eqb_spec v "private"); [subst; tauto|]. reflexivity.
Qed.

Lemma parse_queueMode_valid (q : string) :
  ~ In q VALID_ROOM_QUEUE_MODE -> parse_queueMode q = None.
Proof.
  unfold parse_queueMode, VALID_ROOM_QUEUE_MODE. simpl. intros H.
  destruct (String.eqb_spec q "manual"); [subst; tauto|].
  destruct (String.eqb_spec q "vote"); [subst; tauto|].
  destruct (String.eqb_spec q "loop"); [subst; tauto|].
  destruct (String.eqb_spec q "dj"); [subst; tauto|]. reflexivity.
Qed.

(** Settings that break a rule have a member the room finds invalid. *)
Lemma bad_settings_invalid (lim : Limits) (env : Env) (b : PatchBody) :
  bad_settings lim b ->
  exists member, first_invalid lim (patch_settings env b) = Some member.
Proof.
  unfold first_invalid, patch_settings. simpl.
  intros [(v & E & H)|[(q & E & H)|[(t & E & H)|(d & E & H)]]];
    rewrite ?E; simpl;
    repeat match goal with
      | |- context [if negb ?c then _ else _] =>
          destruct c eqn:?; simpl; eauto
      end.
  - match goal with P : is_some (parse_visibility v) = true |- _ =>
      rewrite (parse_visibility_valid v H) in P; discriminate P end.
  - match goal with P : is_some (parse_queueMode q) = true |- _ =>
      rewrite (parse_queueMode_valid q H) in P; discriminate P end.
  - match goal with L : (String.length t <=? _)%nat = true |- _ =>
      apply Nat.leb_le in L end.
    lia.
  - match goal with L : (String.length d <=? _)%nat = true |- _ =>
      apply Nat.leb_le in L end.
    lia.
Qed.

(** C5: with the room of the spec behind the handler, a settings
    request whose visibility or queue mode is supplied and outside its
    enum, or whose title or description is longer than its bound, fails
    and nothing is merged: the rooms are as they were and nothing is
    written to storage.  A visibility that is not empty is refused by
    the handler with a [BadApiArgumentException] for [visibility], and
    after it a queue mode that is not empty with one for [queueMode],
    before anything is called; what the handler lets through (an empty
    value, a long string) is refused by the room with a validation
    error that names the member, once the room and the client are
    resolved and the client is let in. *)
Theorem settings_validated (lim : Limits)
    (permits : Room -> ClientId -> option Thrown) (env : Env)
    (req : Req PatchBody) (w : World)
    (H : bad_settings lim (reqbody req)) :
  let out := patchRoom (with_room lim permits env) req w in
  (exists e, fst out = Throw e) /\
  rooms (snd out) = rooms w /\
  (forall room, In (CallUpdateRoom room) (calls (snd out)) ->
                In (CallUpdateRoom room) (calls w)) /\
  (outside_enum VALID_ROOM_VISIBILITY (pb_visibility (reqbody req)) ->
     out = (Throw (BadApiArgumentException "visibility"
                     "must be one of public,unlisted,private"), w)) /\
  (~ outside_enum VALID_ROOM_VISIBILITY (pb_visibility (reqbody req)) ->
   outside_enum VALID_ROOM_QUEUE_MODE (pb_queueMode (reqbody req)) ->
     out = (Throw (BadApiArgumentException "queueMode"
                     "must be one of manual,vote,loop,dj"), w)) /\
  (forall i room client,
     ~ outside_enum VALID_ROOM_VISIBILITY (pb_visibility (reqbody req)) ->
     ~ outside_enum VALID_ROOM_QUEUE_MODE (pb_queueMode (reqbody req)) ->
     find_room (param_name req) (rooms w) 0 = Some (i, room) ->
     (pb_claim (reqbody req) = true ->
        isTemporary (state room) = false /\ owner (state room) = None) ->
     getClient env (token req) (param_name req) = inr client ->
     permits room client = None ->
     exists member,
       fst out = Throw (OttException "ValidationError" member)).
Proof.
  cbv zeta.
  destruct (bad_settings_invalid lim (with_room lim permits env) _ H)
    as (member & Hbad).
  unfold patch_settings in Hbad.
  unfold patchRoom.
  destruct (truthy_str (pb_visibility (reqbody req))
            && negb (includes VALID_ROOM_VISIBILITY
                       (pb_visibility (reqbody req)))) eqn:Ev.
  { assert (Ov : outside_enum VALID_ROOM_VISIBILITY
                   (pb_visibility (reqbody req)))
      by (apply accepted_false_iff; now rewrite Ev).
    simpl. repeat split; eauto; intros; contradiction. }
  assert (Nv : ~ outside_enum VALID_ROOM_VISIBILITY
                 (pb_visibility (reqbody req))).
  { rewrite <- accepted_false_iff. rewrite Ev. discriminate. }
  destruct (truthy_str (pb_queueMode (reqbody req))
            && negb (includes VALID_ROOM_QUEUE_MODE
                       (pb_queueMode (reqbody req)))) eqn:Eq.
  { assert (Oq : outside_enum VALID_ROOM_QUEUE_MODE
                   (pb_queueMode (reqbody req)))
      by (apply accepted_false_iff; now rewrite Eq).
    simpl. repeat split; eauto; intros; contradiction. }
  assert (Nq : ~ outside_enum VALID_ROOM_QUEUE_MODE
                 (pb_queueMode (reqbody req))).
  { rewrite <- accepted_false_iff. rewrite Eq. discriminate. }
  run.
  destruct (find_room (param_name req) (rooms w) 0) as [[i room]|] eqn:Ef;
    simpl.
  2:{ repeat split; eauto; try tauto.
      - intros room Hin. apply in_app_or in Hin.
        destruct Hin as [Hin|[Hin|[]]]; [assumption|discriminate Hin].
      - intros; discriminate. }
  destruct (find_room_nth _ _ _ _ _ Ef) as (_ & Hnth & _).
  rewrite Nat.sub_0_r in Hnth.
  simpl in Hbad.
  assert (Hcalls : forall extra r0,
            (forall c, In c extra -> Calls.is_updateRoom c = false) ->
            In (CallUpdateRoom r0) (calls w ++ extra)%list ->
            In (CallUpdateRoom r0) (calls w)).
  { intros extra r0 Hx Hin. apply in_app_or in Hin.
    destruct Hin as [Hin|Hin]; [assumption|].
    apply Hx in Hin. discriminate Hin. }
  unfold applySettings.
  destruct (pb_claim (reqbody req)) eqn:Ec;
    [destruct (isTemporary (state room)) eqn:Et;
       [|destruct (is_some (owner (state room))) eqn:Eo]|]; simpl;
    try destruct (getClient env (token req) (param_name req))
      as [e|client] eqn:Eg; simpl;
    try destruct (permits room client) as [e|] eqn:Ea; simpl;
    rewrite ?Hbad; simpl; rewrite ?(replace_nth_same _ _ _ Hnth).
  all: split; [eauto|]; split; [reflexivity|]; split;
    [intros r0 Hin; rewrite <- ?app_assoc in Hin;
     apply (Hcalls _ r0) in Hin; [exact Hin|];
     intros c Hc; simpl in Hc; intuition (subst; reflexivity)|];
    split; [intros; contradiction|]; split; [intros; contradiction|];
    intros i0 room0 client0 _ _ Hsome Hclaim Hclient Hpermits;
    inversion Hsome; subst i0 room0;
    try discriminate Hclient;
    try (inversion Hclient; subst client0);
    try (destruct (Hclaim eq_refl) as [Ht Ho];
         rewrite ?Ho in *; simpl in *; congruence);
    try congruence; eauto.
Qed.

Lemma settings_validated_witness :
  let out :=
    patchRoom (with_room short everyone (Examples.calm None))
      (Examples.request None None "lounge"
         (Examples.patch_body (Some "") false))
      (Examples.world_of [Examples.lounge]) in
  rooms (snd out) = [Examples.lounge] /\
  exists member, fst out = Throw (OttException "ValidationError" member).
Proof.
  assert (Hbad : bad_settings short (Examples.patch_body (Some "") false)).
  { left. exists "". split; [reflexivity|]. simpl. intuition discriminate. }
  destruct (settings_validated short everyone (Examples.calm None)
              (Examples.request None None "lounge"
                 (Examples.patch_body (Some "") false))
              (Examples.world_of [Examples.lounge]) Hbad)
    as (_ & Hrooms & _ & _ & _ & Hroom).
  split; [exact Hrooms|].
  apply (Hroom 0%nat Examples.lounge "client-1");
    try reflexivity; try discriminate;
    intros (v & E & N & _); try discriminate E;
    apply N; now inversion E.
Defined.

(** ** The routing of requests to rooms *)

(** The sibling handlers (undo, vote) reach the room only through
    [client.makeRoomRequest]: they never call [room.processRequest]. *)
Lemma undoEvent_routes (env : Env) (req : Req UndoBody) (w : World) :
  Forall (fun c => is_processRequest c = false) (calls w) ->
  Forall (fun c => is_processRequest c = false)
    (calls (snd (undoEvent env req w))).
Proof.
  intros H. unfold undoEvent. run. branch. all: close_calls.
Qed.

Lemma vote_routes (env : Env) (add : bool) (req : Req VoteBody) (w : World) :
  Forall (fun c => is_processRequest c = false) (calls w) ->
  Forall (fun c => is_processRequest c = false)
    (calls (snd (vote env add req w))).
Proof.
  intros H. unfold vote. run. branch. all: close_calls.
Qed.

(** C4, at the input where the code departs from it: a settings
    request for a resident room.  [patchRoom] hands the request to
    [room.processRequest] on the room object it got from the room
    manager; whatever the collaborators do, it never goes through
    [client.makeRoomRequest], the call that forwards to the owning
    process. *)
Theorem patchRoom_calls_room_directly :
  let req :=
    Examples.request None None "lounge"
      (Examples.patch_body (Some "unlisted") false) in
  (forall env r l,
     Forall (fun c => is_makeRoomRequest c = false)
       (calls (snd (patchRoom env r (Examples.world_of l))))) /\
  calls (snd (patchRoom (Examples.calm None) req
                (Examples.world_of [Examples.lounge]))) =
    [CallGetRoom "lounge"; CallGetClient (Some "t0k3n") "lounge";
     CallProcessRequest "lounge"
       (ApplySettingsReq "client-1"
          (patch_settings (Examples.calm None)
             (Examples.patch_body (Some "unlisted") false)));
     CallUpdateRoom Examples.lounge].
Proof.
  split; [|reflexivity].
  intros env r l. apply patchRoom_no_makeRoomRequest. constructor.
Qed.

(** ** Storage *)

Section Storage.
Variable env : Env.

Lemma handler_saves_permanent (r : ApiRequest) (w : World) :
  Forall saves_permanent (calls w) ->
  Forall saves_permanent (calls (snd (handler_of env r w))).
Proof.
  intros H. destruct r as [req|req|req|req|req|req]; simpl.
  - assumption.
  - unfold createRoom. run. branch. all: close_calls.
  - now apply patchRoom_saves_permanent.
  - unfold undoEvent. run. branch. all: close_calls.
  - unfold addVote, vote. run. branch. all: close_calls.
  - unfold removeVote, vote. run. branch. all: close_calls.
Qed.

Lemma route_calls (r : ApiRequest) (w : World) :
  snd (route env r w) = snd (handler_of env r w).
Proof.
  unfold route, guarded. now destruct (handler_of env r w) as [[resp|e] w'].
Qed.

Lemma serve_saves_permanent (rs : list ApiRequest) (w : World) :
  Forall saves_permanent (calls w) ->
  Forall saves_permanent (calls (snd (serve env rs w))).
Proof.
  revert w. induction rs as [|r rs IH]; intros w H; simpl; [assumption|].
  destruct (route env r w) as [resp w'] eqn:Er.
  specialize (IH w').
  destruct (serve env rs w') as [resps w'']. simpl in *.
  apply IH. change w' with (snd (resp, w')). rewrite <- Er, route_calls.
  now apply handler_saves_permanent.
Qed.

End Storage.

(** C6: whatever requests the API serves, in whatever order, and
    whatever the collaborators do, every room the handlers pass to
    [storage.updateRoom] is a permanent room at the time of the call:
    the settings update, the only path of these handlers that writes to
    storage, saves only when [room.isTemporary] is false. *)
Theorem temporary_never_saved (env : Env) (rs : list ApiRequest)
    (resident : list Room) :
  forall room,
    In (CallUpdateRoom room)
       (calls (snd (serve env rs {| rooms := resident; calls := [] |}))) ->
    isTemporary (state room) = false.
Proof.
  intros room Hin.
  assert (H := serve_saves_permanent env rs
                 {| rooms := resident; calls := [] |} (Forall_nil _)).
  rewrite Forall_forall in H. exact (H _ Hin).
Qed.

Lemma temporary_never_saved_witness :
  let served :=
    serve (Examples.calm None)
      [PatchName (Examples.request None None "popup"
                    (Examples.patch_body (Some "public") false));
       PatchName (Examples.request None None "lounge"
                    (Examples.patch_body (Some "unlisted") false))]
      {| rooms := [Examples.popup; Examples.lounge]; calls := [] |} in
  map status (fst served) = [200; 200] /\
  In (CallUpdateRoom Examples.lounge) (calls (snd served)) /\
  ~ In (CallUpdateRoom Examples.popup) (calls (snd served)) /\
  isTemporary (state Examples.lounge) = false.
Proof.
  assert (Hin :
    In (CallUpdateRoom Examples.lounge)
       (calls (snd (serve (Examples.calm None)
          [PatchName (Examples.request None None "popup"
                        (Examples.patch_body (Some "public") false));
           PatchName (Examples.request None None "lounge"
                        (Examples.patch_body (Some "unlisted") false))]
          {| rooms := [Examples.popup; Examples.lounge]; calls := [] |})))).
  { vm_compute. tauto. }
  split; [reflexivity|]. split; [exact Hin|]. split.
  - vm_compute. intuition discriminate.
  - exact (temporary_never_saved _ _ _ _ Hin).
Defined.

(** ** The error boundary *)

(** C7, as stated, fails: the handlers also answer failures
    themselves.  A claim by a requester who is not logged in is
    answered 401 with a message and no name, and a list request with a
    wrong API key is answered 400 with a plain text as error; neither
    is one of the two shapes. *)
Lemma failures_outside_the_two_shapes :
  let claim :=
    fst (route (Examples.calm None)
           (PatchName (Examples.request None None "lounge"
                         (Examples.patch_body None true)))
           (Examples.world_of [Examples.lounge])) in
  let list :=
    fst (route (Examples.calm (Some "s3cret"))
           (GetList (Examples.request (Some "guess") None "" tt))
           (Examples.world_of [Examples.lounge])) in
  (claim = unauthorized_claim /\ is_failure claim = true /\
   ~ known_shape claim /\ ~ unknown_shape claim) /\
  (list = invalid_apikey /\ is_failure list = true /\
   ~ known_shape list /\ ~ unknown_shape list).
Proof.
  cbv zeta. split; (split; [reflexivity|]); (split; [reflexivity|]); split.
  - intros [H _]. discriminate H.
  - intros H. discriminate H.
  - intros [_ (n & m & a & rs & H)]. discriminate H.
  - intros H. discriminate H.
Qed.

Section Boundary.
Variable env : Env.

(** What [errorHandler] answers, by the two kinds of thrown value. *)
Lemma errorHandler_known (e : Thrown) :
  is_ott e = true ->
  errorHandler env e =
  {| status := 400;
     body := JFailure (Some (ErrObject (Some (err_name e)) (err_message env e)
                               (err_arg e) (err_reason e))) |}.
Proof.
  destruct e as [n m|arg reason|n m st]; simpl; intros H;
    [|reflexivity|discriminate].
  destruct (String.eqb_spec n "BadApiArgumentException") as [->|_];
    reflexivity.
Qed.

Lemma errorHandler_unknown (e : Thrown) :
  is_ott e = false -> errorHandler env e = unknown_failure.
Proof.
  destruct e; simpl; intros H; [discriminate|discriminate|reflexivity].
Qed.

(** The failures a handler answers without throwing. *)
Lemma direct_failures (r : ApiRequest) (w w' : World) (resp : Response) :
  handler_of env r w = (Return resp, w') ->
  resp = ok JSuccess \/ (exists l, resp = ok (JRooms l)) \/
  resp = invalid_apikey \/ resp = unauthorized_claim \/
  resp = update_failed \/ (exists info, resp = handleRateLimit env info).
Proof.
  destruct r as [req|req|req|req|req|req]; simpl.
  - unfold listRooms. intros H. inversion H; subst.
    destruct (truthy_str (apikey req) && _); eauto 6.
  - unfold createRoom. run. branch; intros H; inversion H; subst; eauto 7.
  - unfold patchRoom. run. branch; intros H; inversion H; subst; eauto 7.
  - unfold undoEvent. run. branch; intros H; inversion H; subst; eauto 7.
  - unfold addVote, vote. run. branch; intros H; inversion H; subst; eauto 7.
  - unfold removeVote, vote. run.
    branch; intros H; inversion H; subst; eauto 7.
Qed.

End Boundary.

(** C7 (amended): every exception a handler throws is caught at the
    boundary and reported in one of two shapes: an [OttException] with
    status 400, its name and its message (and, for a
    [BadApiArgumentException], the argument and the reason), anything
    else with status 500 and the fixed name [Unknown] and message,
    whatever the error said.  The failures that are not exceptions are
    answered by the handlers themselves: the invalid API key (400), the
    claim without login (401), the failed storage update (500 without
    error member) and the reply of the rate limiter. *)
Theorem errorHandler_two_shapes (env : Env) (r : ApiRequest) (w : World) :
  (forall e,
     (is_ott e = true ->
        known_shape (errorHandler env e) /\
        errorHandler env e =
          {| status := 400;
             body := JFailure (Some (ErrObject (Some (err_name e))
                       (err_message env e) (err_arg e) (err_reason e))) |}) /\
     (is_ott e = false -> errorHandler env e = unknown_failure)) /\
  (forall e w',
     handler_of env r w = (Throw e, w') ->
     route env r w = (errorHandler env e, w')) /\
  (forall resp w',
     handler_of env r w = (Return resp, w') ->
     route env r w = (resp, w') /\
     (is_failure resp = true ->
        resp = invalid_apikey \/ resp = unauthorized_claim \/
        resp = update_failed \/ exists info, resp = handleRateLimit env info)).
Proof.
  split; [|split].
  - intros e. split; intros H.
    + rewrite (errorHandler_known env e H). split; [|reflexivity].
      split; [reflexivity|]. simpl. eauto.
    + now apply errorHandler_unknown.
  - intros e w' H. unfold route, guarded. now rewrite H.
  - intros resp w' H. split; [unfold route, guarded; now rewrite H|].
    intros F.
    destruct (direct_failures env r w w' resp H)
      as [E|[[l E]|[E|[E|[E|E]]]]]; subst; try discriminate F; auto.
Qed.


(** * Further properties of the handlers *)

Import Storable Calls.

(** ** GET /list, by the key presented *)

(** On a server with a key configured, a request that carries no
    [apikey] header is sent exactly the public rooms, each once, in
    the order of [entry_le]. *)
Theorem listRooms_public_only (env : Env) (req : Req unit) (all : list Room)
    (k : string)
    (Hkey : api_key env = Some k) (Hreq : apikey req = None) :
  exists l,
    listRooms env req all = ok (JRooms l) /\
    Permutation l (map room_entry (filter is_public all)) /\
    StronglySorted entry_le l /\
    (forall e, In e l -> e_visibility e = Public).
Proof.
  destruct (listRooms_not_authorized env req all) as (l & E & P & S).
  - now rewrite Hkey, Hreq.
  - now rewrite Hreq.
  - exists l. repeat split; try assumption.
    intros e He. apply (Permutation_in _ P) in He.
    apply in_map_iff in He. destruct He as (room & <- & Hin).
    apply filter_In in Hin. simpl. now apply is_public_iff.
Qed.

Lemma listRooms_public_only_witness :
  exists l,
    listRooms (Examples.calm (Some "s3cret")) (Examples.request None None "" tt)
      [Examples.hideout; Examples.lounge; Examples.studio]
    = ok (JRooms l) /\
    Permutation l
      (map room_entry
         (filter is_public [Examples.hideout; Examples.lounge; Examples.studio]))
    /\ StronglySorted entry_le l /\
    (forall e, In e l -> e_visibility e = Public).
Proof.
  apply (listRooms_public_only (Examples.calm (Some "s3cret")) _ _ "s3cret");
    reflexivity.
Defined.

Lemma listRooms_invalid_key_witness :
  listRooms (Examples.calm (Some "s3cret"))
    (Examples.request (Some "guess") None "" tt) [Examples.lounge]
  = invalid_apikey.
Proof.
  apply (listRooms_invalid_key (Examples.calm (Some "s3cret")) _ _ "guess");
    [reflexivity|discriminate|discriminate].
Defined.

(** A request that presents the configured key is sent every resident
    room, public or not, each once, in the order of [entry_le]. *)
Theorem listRooms_all_with_key (env : Env) (req : Req unit) (all : list Room)
    (k : string)
    (Hkey : api_key env = Some k) (Hreq : apikey req = Some k) :
  exists l,
    listRooms env req all = ok (JRooms l) /\
    Permutation l (map room_entry all) /\
    StronglySorted entry_le l.
Proof.
  unfold listRooms. rewrite Hkey, Hreq. simpl. rewrite String.eqb_refl.
  rewrite andb_false_r. eexists. split; [reflexivity|].
  split; [|apply orderBy_sorted].
  rewrite orderBy_perm, collect_filter.
  assert (E : filter (fun room => is_public room || true) all = all).
  { induction all as [|room rest IH]; simpl; [reflexivity|].
    rewrite orb_true_r. now rewrite IH. }
  now rewrite E.
Qed.

Lemma listRooms_all_with_key_witness :
  exists l,
    listRooms (Examples.calm (Some "s3cret"))
      (Examples.request (Some "s3cret") None "" tt)
      [Examples.hideout; Examples.lounge]
    = ok (JRooms l) /\
    Permutation l (map room_entry [Examples.hideout; Examples.lounge]) /\
    StronglySorted entry_le l.
Proof.
  apply (listRooms_all_with_key (Examples.calm (Some "s3cret")) _ _ "s3cret");
    reflexivity.
Defined.

(** ** POST /create: what reaches the room manager *)

Lemma create_options_wellformed (req : Req CreateBody) :
  create_valid (reqbody req) = true ->
  let o := create_options req in
  cb_name (co_body o) = cb_name (reqbody req) /\
  includes VALID_ROOM_VISIBILITY (cb_visibility (co_body o)) = true /\
  cb_isTemporary (co_body o) = Some (create_temporary (reqbody req)) /\
  co_owner o = match user req with
               | Some u => Some u
               | None => cb_owner (reqbody req)
               end.
Proof.
  unfold create_valid, visibility_accepted, create_options, create_body_sent,
    create_temporary.
  rewrite andb_true_iff, negb_true_iff. intros [_ Hv]. simpl.
  split; [reflexivity|]. split; [|split; [|reflexivity]].
  - destruct (truthy_str (cb_visibility (reqbody req))); [|reflexivity].
    simpl in Hv. now apply negb_false_iff in Hv.
  - destruct (cb_temporary (reqbody req)) as [[|]|]; try reflexivity.
    destruct (cb_isTemporary (reqbody req)) as [[|]|]; reflexivity.
Qed.

(** The calls of [createRoom], from a state without calls. *)
Lemma createRoom_calls (env : Env) (req : Req CreateBody) (l : list Room)
    (c : Call) :
  In c (calls (snd (createRoom env req (fresh l)))) ->
  create_valid (reqbody req) = true /\
  (c = CallConsume (ip req) (create_points (reqbody req)) \/
   (exists info, c = CallSetRateLimitHeaders info) \/
   (exists info, c = CallHandleRateLimit info) \/
   c = CallCreateRoom (create_options req)).
Proof.
  destruct (create_valid (reqbody req)) eqn:V.
  - rewrite createRoom_valid by assumption. cbv zeta.
    destruct (consume env (ip req) _) as [info|e|info].
    + destruct (CreateRoom env _ _) as [[e|] l']; simpl;
        intros [H|[H|[H|[]]]]; subst; eauto 6.
    + simpl. intros [H|[]]; subst; eauto.
    + simpl. intros [H|[H|[]]]; subst; eauto 6.
  - destruct (createRoom_invalid env req (fresh l) V) as (a & r & _ & E).
    rewrite E. simpl. intros [].
Qed.

(** Whenever [createRoom] asks the room manager to create a room, the
    options carry the name of the request, not empty and not a reserved
    word, a visibility that is a member of the enum (public when the
    request gave none), a defined [isTemporary] and, as owner, the
    logged-in user of the request; when the requester is not logged
    in, the owner passed on is whatever [owner] member the body itself
    carries, none if it has none. *)
Theorem createRoom_options_wellformed (env : Env) (req : Req CreateBody)
    (l : list Room) (o : CreateOptions)
    (H : In (CallCreateRoom o) (calls (snd (createRoom env req (fresh l))))) :
  (exists s,
     cb_name (reqbody req) = Some s /\ cb_name (co_body o) = Some s /\
     s <> "" /\ ~ In s RESERVED_ROOM_NAMES) /\
  In (match cb_visibility (co_body o) with Some v => v | None => "" end)
     ["public"; "unlisted"; "private"] /\
  (cb_visibility (reqbody req) = None ->
     cb_visibility (co_body o) = Some "public") /\
  (exists b, cb_isTemporary (co_body o) = Some b) /\
  (forall u, user req = Some u -> co_owner o = Some u) /\
  (user req = None -> co_owner o = cb_owner (reqbody req)).
Proof.
  apply createRoom_calls in H. destruct H as [V H].
  destruct H as [H|[[i H]|[[i H]|H]]]; try discriminate H.
  inversion H; subst o; clear H.
  destruct (create_options_wellformed req V) as (Hn & Hv & Ht & Ho).
  cbv zeta in *. split; [|split; [|split; [|split; [|split]]]].
  - unfold create_valid in V. apply andb_true_iff in V. destruct V as [V _].
    destruct (cb_name (reqbody req)) as [s|] eqn:En; [|discriminate].
    apply name_accepted_iff in V. destruct V as (L & _ & R).
    exists s. repeat split; try tauto.
    + intros ->. simpl in L. lia.
    + simpl. intuition (subst; tauto).
  - destruct (cb_visibility (co_body (create_options req))) as [v|];
      [|discriminate].
    simpl in Hv. rewrite !orb_true_iff, !String.eqb_eq in Hv.
    simpl. intuition (try discriminate; subst; auto).
  - intros E. simpl. now rewrite E.
  - eauto.
  - intros u E. rewrite Ho, E. reflexivity.
  - intros E. rewrite Ho, E. reflexivity.
Qed.

Lemma createRoom_options_wellformed_witness :
  let body :=
    {| cb_name := Some "lounge"; cb_visibility := None;
       cb_temporary := None; cb_isTemporary := None;
       cb_title := None; cb_description := None; cb_queueMode := None;
       cb_owner := Some Examples.alice |} in
  let o :=
    {| co_body :=
         with_isTemporary (Some false) (with_visibility (Some "public") body);
       co_owner := Some Examples.alice |} in
  In (match cb_visibility (co_body o) with Some v => v | None => "" end)
     ["public"; "unlisted"; "private"] /\
  co_owner o = cb_owner body.
Proof.
  cbv zeta.
  destruct (createRoom_options_wellformed (Examples.calm None)
              (Examples.request None None ""
                 {| cb_name := Some "lounge"; cb_visibility := None;
                    cb_temporary := None; cb_isTemporary := None;
                    cb_title := None; cb_description := None;
                    cb_queueMode := None;
                    cb_owner := Some Examples.alice |}) []
              {| co_body :=
                   with_isTemporary (Some false)
                     (with_visibility (Some "public")
                        {| cb_name := Some "lounge"; cb_visibility := None;
                           cb_temporary := None; cb_isTemporary := None;
                           cb_title := None; cb_description := None;
                           cb_queueMode := None;
                           cb_owner := Some Examples.alice |});
                 co_owner := Some Examples.alice |})
    as (_ & Hv & _ & _ & _ & Ho).
  - vm_compute. tauto.
  - split; [exact Hv|]. apply Ho. reflexivity.
Defined.

(** The limiter is charged 50 points for a temporary room and 200 for
    a permanent one, by the flag the room manager is then given; and
    the [temporary] member of the body, when present, decides that
    flag whatever [isTemporary] the body carries. *)
Theorem createRoom_points_by_kind (env : Env) (req : Req CreateBody)
    (l : list Room) (i : string) (points : Z) (o : CreateOptions)
    (Hc : In (CallConsume i points)
            (calls (snd (createRoom env req (fresh l)))))
    (Ho : In (CallCreateRoom o)
            (calls (snd (createRoom env req (fresh l))))) :
  i = ip req /\
  points = (if truthy_bool (cb_isTemporary (co_body o)) then 50 else 200) /\
  (forall t, cb_temporary (reqbody req) = Some t ->
             cb_isTemporary (co_body o) = Some t).
Proof.
  apply createRoom_calls in Hc, Ho.
  destruct Hc as [V Hc], Ho as [_ Ho].
  destruct Hc as [Hc|[[x Hc]|[[x Hc]|Hc]]]; try discriminate Hc.
  destruct Ho as [Ho|[[x Ho]|[[x Ho]|Ho]]]; try discriminate Ho.
  inversion Hc; inversion Ho; subst; clear Hc Ho.
  destruct (create_options_wellformed req V) as (_ & _ & Ht & _).
  cbv zeta in Ht. rewrite Ht. simpl.
  split; [reflexivity|]. split; [reflexivity|].
  intros t E. unfold create_temporary. now rewrite E.
Qed.

Lemma createRoom_points_by_kind_witness :
  let body :=
    {| cb_name := Some "popup"; cb_visibility := None;
       cb_temporary := Some true; cb_isTemporary := Some false;
       cb_title := None; cb_description := None; cb_queueMode := None;
       cb_owner := None |} in
  let o :=
    {| co_body :=
         with_visibility (Some "public") (with_isTemporary (Some true) body);
       co_owner := None |} in
  50 = (if truthy_bool (cb_isTemporary (co_body o)) then 50 else 200) /\
  cb_isTemporary (co_body o) = Some true.
Proof.
  cbv zeta.
  destruct (createRoom_points_by_kind (Examples.calm None)
              (Examples.request None None ""
                 {| cb_name := Some "popup"; cb_visibility := None;
                    cb_temporary := Some true; cb_isTemporary := Some false;
                    cb_title := None; cb_description := None;
                    cb_queueMode := None; cb_owner := None |})
              [] "10.0.0.1" 50
              {| co_body :=
                   with_visibility (Some "public")
                     (with_isTemporary (Some true)
                        {| cb_name := Some "popup"; cb_visibility := None;
                           cb_temporary := Some true;
                           cb_isTemporary := Some false;
                           cb_title := None; cb_description := None;
                           cb_queueMode := None; cb_owner := None |});
                 co_owner := None |})
    as (_ & Hp & Ht).
  - vm_compute. tauto.
  - vm_compute. tauto.
  - split; [exact Hp|]. apply Ht. reflexivity.
Defined.

(** When the room manager refuses the creation with an [OttException]
    (the name is taken, say), the requester is answered 400 with the
    name and message of that exception; the points have been consumed
    all the same, and the rooms are as the room manager left them. *)
Theorem createRoom_refused_after_consume (env : Env) (req : Req CreateBody)
    (w : World) (info : Z) (n m : string) (l' : list Room)
    (Hvalid : create_valid (reqbody req) = true)
    (Hlimit : consume env (ip req) (create_points (reqbody req))
              = Consumed info)
    (Hcreate : CreateRoom env (create_options req) (rooms w)
               = (Some (OttException n m), l')) :
  let out := route env (PostCreate req) w in
  status (fst out) = 400 /\
  body (fst out) = JFailure (Some (ErrObject (Some n) m None None)) /\
  In (CallConsume (ip req) (create_points (reqbody req))) (calls (snd out)) /\
  rooms (snd out) = l'.
Proof.
  cbv zeta. unfold route, guarded. simpl handler_of.
  rewrite createRoom_valid by assumption. cbv zeta.
  rewrite Hlimit, Hcreate. simpl.
  split; [|split; [|split; [|reflexivity]]].
  - now destruct (n =? "BadApiArgumentException")%string.
  - destruct (String.eqb_spec n "BadApiArgumentException") as [->|_];
      reflexivity.
  - apply in_or_app. right. simpl. auto.
Qed.

Lemma createRoom_refused_after_consume_witness :
  status (fst (route Cases.refusing
                 (PostCreate (Examples.request None None ""
                                (Examples.create_body "lounge")))
                 (Examples.world_of [Examples.lounge]))) = 400.
Proof.
  refine (proj1 (createRoom_refused_after_consume Cases.refusing _ _ 200
                   "RoomNameTakenException" "taken" [Examples.lounge]
                   _ _ _)); reflexivity.
Defined.

(** ** PATCH /:name: what is sent, stored and kept *)

Lemma owner_client_some (uid : Z) (l : list ClientInfo) (c : ClientId) :
  owner_client uid l = Some c ->
  exists l1 ci l2,
    l = (l1 ++ ci :: l2)%list /\ ci_id ci = c /\ ci_user_id ci = Some uid /\
    (forall x, In x l1 -> ci_user_id x <> Some uid).
Proof.
  induction l as [|x l IH]; simpl; [discriminate|].
  destruct (ci_user_id x) as [i|] eqn:Ex.
  - destruct (Z.eqb_spec i uid) as [->|Hne].
    + intros H. inversion H; subst. exists [], x, l. simpl. tauto.
    + intros H. destruct (IH H) as (l1 & ci & l2 & -> & Hc & Hu & Hn).
      exists (x :: l1), ci, l2. repeat split; try assumption.
      intros y [<-|Hy]; [congruence|now apply Hn].
  - intros H. destruct (IH H) as (l1 & ci & l2 & -> & Hc & Hu & Hn).
    exists (x :: l1), ci, l2. repeat split; try assumption.
    intros y [<-|Hy]; [congruence|now apply Hn].
Qed.

Lemma owner_client_none (uid : Z) (l : list ClientInfo) :
  owner_client uid l = None ->
  forall x, In x l -> ci_user_id x <> Some uid.
Proof.
  induction l as [|x l IH]; simpl; [intros _ y []|].
  destruct (ci_user_id x) as [i|] eqn:Ex.
  - destruct (Z.eqb_spec i uid) as [->|Hne]; [discriminate|].
    intros H y [<-|Hy]; [congruence|now apply IH].
  - intros H y [<-|Hy]; [congruence|now apply IH].
Qed.

(** The request [patchRoom] hands to the room is addressed to the room
    named in the URL, on behalf of the client resolved for the token of
    the request, and carries the title, description, visibility and
    queue mode of the body; its grants are built from [permissions]
    when the body has that member, whatever [grants] it also has, and
    from [grants] otherwise. *)
Theorem patchRoom_request_sent (env : Env) (req : Req PatchBody)
    (l : list Room) (rn : string) (r : RoomRequest)
    (H : In (CallProcessRequest rn r)
           (calls (snd (patchRoom env req (fresh l))))) :
  rn = param_name req /\
  exists client s,
    getClient env (token req) (param_name req) = inr client /\
    r = ApplySettingsReq client s /\
    s_title s = pb_title (reqbody req) /\
    s_description s = pb_description (reqbody req) /\
    s_visibility s = pb_visibility (reqbody req) /\
    s_queueMode s = pb_queueMode (reqbody req) /\
    (forall p, pb_permissions (reqbody req) = Some p ->
               s_grants s = new_Grants env (Some p)) /\
    (pb_permissions (reqbody req) = None ->
     s_grants s = new_Grants env (pb_grants (reqbody req))).
Proof.
  revert H. unfold patchRoom, fresh. run. branch; intros H; in_calls H.
  all: match goal with
       | E : find_room _ _ _ = Some _ |- _ =>
           apply find_room_nth in E; destruct E as (_ & _ & En)
       end.
  all: split; [assumption|].
  all: eexists; eexists; split; [reflexivity|]; split; [reflexivity|]; simpl.
  all: repeat split; try reflexivity; intros; try congruence.
  all: match goal with
       | E : is_some (pb_permissions _) = _, P : pb_permissions _ = _ |- _ =>
           rewrite P in *; simpl in E; congruence
       end.
Qed.

Lemma patchRoom_request_sent_witness :
  exists client s,
    getClient (Examples.calm None) (Some "t0k3n") "lounge" = inr client /\
    ApplySettingsReq "client-1"
      (patch_settings (Examples.calm None)
         {| pb_title := Some "Movie night"; pb_description := None;
            pb_visibility := None; pb_queueMode := None;
            pb_permissions := Some [(0, 1)]; pb_grants := Some [(0, 255)];
            pb_claim := false |})
    = ApplySettingsReq client s /\
    s_grants s = new_Grants (Examples.calm None) (Some [(0, 1)]).
Proof.
  destruct (patchRoom_request_sent (Examples.calm None)
              (Examples.request None None "lounge"
                 {| pb_title := Some "Movie night"; pb_description := None;
                    pb_visibility := None; pb_queueMode := None;
                    pb_permissions := Some [(0, 1)];
                    pb_grants := Some [(0, 255)]; pb_claim := false |})
              [Examples.lounge] "lounge"
              (ApplySettingsReq "client-1"
                 (patch_settings (Examples.calm None)
                    {| pb_title := Some "Movie night"; pb_description := None;
                       pb_visibility := None; pb_queueMode := None;
                       pb_permissions := Some [(0, 1)];
                       pb_grants := Some [(0, 255)]; pb_claim := false |})))
    as (_ & client & s & Hc & Hr & _ & _ & _ & _ & Hp & _).
  - vm_compute. tauto.
  - exists client, s. split; [exact Hc|]. split; [exact Hr|].
    apply Hp. reflexivity.
Defined.

(** When [patchRoom] answers 401 to a claim, the settings of the
    request have already been handed to the room, and nothing is
    written to storage nor synced to a client. *)
Theorem patchRoom_unauthorized_after_processing (env : Env)
    (req : Req PatchBody) (l : list Room)
    (H : fst (patchRoom env req (fresh l)) = Return unauthorized_claim) :
  let made := calls (snd (patchRoom env req (fresh l))) in
  existsb is_processRequest made = true /\
  existsb is_updateRoom made = false /\
  existsb is_syncUser made = false.
Proof.
  cbv zeta. revert H. unfold patchRoom, fresh. run.
  branch; intros H; try discriminate H; simpl; auto.
Qed.

Lemma patchRoom_unauthorized_after_processing_witness :
  existsb is_processRequest
    (calls (snd (patchRoom (Examples.calm None)
                   (Examples.request None None "lounge"
                      (Examples.patch_body (Some "private") true))
                   (fresh [Examples.lounge])))) = true.
Proof.
  refine (proj1 (patchRoom_unauthorized_after_processing _ _ _ _)).
  reflexivity.
Defined.

(** When the storage fails on a settings update, the answer is 500
    with no error member, and the room in memory keeps what it has
    processed: nothing is rolled back. *)
Theorem patchRoom_storage_failure_keeps_changes (env : Env)
    (req : Req PatchBody) (w : World) (i : nat) (room after : Room)
    (client : ClientId) (e : Thrown)
    (Hvis : visibility_accepted (pb_visibility (reqbody req)) = true)
    (Hqm : queueMode_accepted (pb_queueMode (reqbody req)) = true)
    (Hclaim : pb_claim (reqbody req) = false)
    (Hroom : find_room (param_name req) (rooms w) 0 = Some (i, room))
    (Hclient : getClient env (token req) (param_name req) = inr client)
    (Hproc : processRequest env room
               (ApplySettingsReq client (patch_settings env (reqbody req)))
             = (None, after))
    (Hperm : isTemporary (state after) = false)
    (Hfail : updateRoom env after = Some e) :
  let out := route env (PatchName req) w in
  fst out = update_failed /\
  nth_error (rooms (snd out)) i = Some after /\
  In (CallUpdateRoom after) (calls (snd out)).
Proof.
  cbv zeta.
  destruct (find_room_nth _ _ _ _ _ Hroom) as (_ & Hnth & _).
  rewrite Nat.sub_0_r in Hnth.
  unfold visibility_accepted, queueMode_accepted in Hvis, Hqm.
  apply negb_true_iff in Hvis, Hqm.
  unfold route, guarded. simpl handler_of.
  unfold patchRoom. unfold patch_settings in Hproc. rewrite Hclaim in Hproc.
  rewrite Hvis, Hqm, Hclaim. run. rewrite Hroom. simpl.
  rewrite Hclient. simpl. rewrite Hproc. simpl. rewrite Hperm. simpl.
  rewrite Hfail. simpl.
  split; [reflexivity|]. split.
  - now apply nth_error_replace_nth with room.
  - apply in_or_app. right. simpl. auto.
Qed.

(** When [patchRoom] syncs a client, the requester is logged in and
    has just become the owner of the room, and the client synced is
    the first connected client of the room whose user is the new
    owner. *)
Theorem patchRoom_syncs_new_owner (env : Env) (req : Req PatchBody)
    (l : list Room) (rn : string) (c : ClientId)
    (H : In (CallSyncUser rn c)
           (calls (snd (patchRoom env req (fresh l))))) :
  exists u i room before ci rest,
    user req = Some u /\
    nth_error (rooms (snd (patchRoom env req (fresh l)))) i = Some room /\
    owner (state room) = Some u /\ rn = name (state room) /\
    realusers room = (before ++ ci :: rest)%list /\
    ci_id ci = c /\ ci_user_id ci = Some (user_ident u) /\
    (forall x, In x before -> ci_user_id x <> Some (user_ident u)).
Proof.
  revert H. unfold patchRoom, fresh. run. branch; intros H; in_calls H.
  all: match goal with
       | E : find_room _ _ _ = Some _ |- _ =>
           apply find_room_nth in E; destruct E as (_ & En & _);
           rewrite Nat.sub_0_r in En
       end.
  all: match goal with
       | E : owner_client _ _ = Some _ |- _ =>
           apply owner_client_some in E;
           destruct E as (l1 & ci & l2 & El & Hc & Hu & Hn)
       end.
  all: match goal with
       | u : User, n : nat, r : Room |- context [set_owner ?v ?r'] =>
           exists v, n, (set_owner v r'), l1, ci, l2
       end.
  all: repeat split; try assumption; try reflexivity.
  all: rewrite replace_nth_twice; eapply nth_error_replace_nth; eassumption.
Qed.

Lemma patchRoom_storage_failure_keeps_changes_witness :
  let out :=
    route Cases.refusing
      (PatchName (Examples.request None None "lounge"
                    (Examples.patch_body (Some "private") false)))
      (Examples.world_of [Examples.hideout; Examples.lounge]) in
  fst out = update_failed /\
  nth_error (rooms (snd out)) 1 = Some Examples.lounge /\
  In (CallUpdateRoom Examples.lounge) (calls (snd out)).
Proof.
  apply (patchRoom_storage_failure_keeps_changes Cases.refusing _ _ 1%nat
           Examples.lounge Examples.lounge "client-1"
           (UnknownError "SequelizeConnectionError" "refused" "at query"));
    reflexivity.
Defined.

Lemma patchRoom_syncs_new_owner_witness :
  exists u i room before ci rest,
    Some Examples.alice = Some u /\
    nth_error
      (rooms (snd (patchRoom (Examples.calm None)
                     (Examples.request None (Some Examples.alice) "lounge"
                        (Examples.patch_body None true))
                     (fresh [Cases.busy_lounge])))) i = Some room /\
    owner (state room) = Some u /\ "lounge" = name (state room) /\
    realusers room = (before ++ ci :: rest)%list /\
    ci_id ci = "client-2" /\ ci_user_id ci = Some (user_ident u) /\
    (forall x, In x before -> ci_user_id x <> Some (user_ident u)).
Proof.
  apply (patchRoom_syncs_new_owner (Examples.calm None)
           (Examples.request None (Some Examples.alice) "lounge"
              (Examples.patch_body None true))
           [Cases.busy_lounge] "lounge" "client-2").
  vm_compute. tauto.
Defined.

(** ** Votes and undo *)

(** A vote that lacks the service or the id of the video (missing or
    empty) is answered 400 with a [BadApiArgumentException] naming the
    first member that lacks, and nothing has been called. *)
Theorem vote_missing_member (env : Env) (add : bool) (req : Req VoteBody)
    (w : World)
    (H : truthy_str (vb_service (reqbody req)) = false \/
         truthy_str (vb_id (reqbody req)) = false) :
  let arg :=
    if truthy_str (vb_service (reqbody req)) then "id" else "service" in
  route env (if add then PostVote req else DeleteVote req) w =
  ({| status := 400;
      body := JFailure (Some (ErrObject (Some "BadApiArgumentException")
                (bad_api_message env arg "missing")
                (Some arg) (Some "missing"))) |}, w).
Proof.
  cbv zeta. unfold route, guarded.
  destruct add; simpl handler_of; unfold addVote, removeVote, vote;
    destruct (truthy_str (vb_service (reqbody req))); simpl;
    try reflexivity;
    (destruct H as [H|H]; [discriminate|]); rewrite H; reflexivity.
Qed.

Lemma vote_missing_member_witness :
  route (Examples.calm None)
    (PostVote (Examples.request None None "lounge"
                 {| vb_service := Some "youtube"; vb_id := Some "" |}))
    (Examples.world_of [Examples.lounge]) =
  ({| status := 400;
      body := JFailure (Some (ErrObject (Some "BadApiArgumentException")
                "id missing" (Some "id") (Some "missing"))) |},
   Examples.world_of [Examples.lounge]).
Proof.
  apply (vote_missing_member (Examples.calm None) true
           (Examples.request None None "lounge"
              {| vb_service := Some "youtube"; vb_id := Some "" |})).
  right. reflexivity.
Defined.

(** The request a vote sends is for the video of the body, service and
    id both not empty, with the token of the request, and it adds the
    vote on POST and removes it on DELETE. *)
Theorem vote_request_sent (env : Env) (add : bool) (req : Req VoteBody)
    (l : list Room) (c : ClientId) (r : RoomRequest)
    (H : In (CallMakeRoomRequest c r)
           (calls (snd (route env (if add then PostVote req
                                   else DeleteVote req) (fresh l))))) :
  exists s i,
    vb_service (reqbody req) = Some s /\ s <> "" /\
    vb_id (reqbody req) = Some i /\ i <> "" /\
    r = VoteReq (token req) c {| service := s; video_id := i |} add.
Proof.
  rewrite route_calls in H. revert H.
  destruct add; simpl handler_of; unfold addVote, removeVote, vote, fresh;
    destruct (vb_service (reqbody req)) as [s|];
    destruct (vb_id (reqbody req)) as [i|]; simpl;
    try (intros []);
    destruct (String.eqb_spec s ""); simpl; try (intros []);
    destruct (String.eqb_spec i ""); simpl; try (intros []);
    run; branch; intros H; in_calls H;
    exists s, i; repeat split; assumption.
Qed.

Lemma vote_request_sent_witness :
  exists s i,
    Some "youtube" = Some s /\ s <> "" /\
    Some "dQw4" = Some i /\ i <> "" /\
    VoteReq (Some "t0k3n") "client-1"
      {| service := "youtube"; video_id := "dQw4" |} false
    = VoteReq (Some "t0k3n") "client-1"
        {| service := s; video_id := i |} false.
Proof.
  apply (vote_request_sent (Examples.calm None) false
           (Examples.request None None "lounge"
              {| vb_service := Some "youtube"; vb_id := Some "dQw4" |})
           [Examples.lounge]).
  vm_compute. tauto.
Defined.

(** An undo whose body has no [data] member is not refused as a bad
    argument: the client is resolved first, then reading the event
    throws, and the requester is answered 500 with the generic
    [Unknown] error; no request is sent and no room changes. *)
Theorem undo_without_data (env : Env) (req : Req UndoBody) (w : World)
    (c : ClientId)
    (Hdata : ub_data (reqbody req) = None)
    (Hclient : getClient env (token req) (param_name req) = inr c) :
  route env (PostUndo req) w =
  (unknown_failure,
   {| rooms := rooms w;
      calls := calls w ++ [CallGetClient (token req) (param_name req)] |}).
Proof.
  unfold route, guarded. simpl handler_of. unfold undoEvent. run.
  rewrite Hclient, Hdata. reflexivity.
Qed.

Lemma undo_without_data_witness :
  fst (route (Examples.calm None)
         (PostUndo (Examples.request None None "lounge" {| ub_data := None |}))
         (Examples.world_of [Examples.lounge])) = unknown_failure.
Proof.
  rewrite (undo_without_data (Examples.calm None) _ _ "client-1");
    reflexivity.
Defined.

(** ** The client a request names *)

(** Whatever route is served, every request handed to a room, directly
    or through [client.makeRoomRequest], names as its client the id
    that [clientmanager.getClient] answers for the token and the room
    name of the HTTP request, and the call of [getClient] with that
    token and that room name comes earlier in the sequence of calls
    than the request. *)
Theorem requests_name_the_resolved_client (env : Env) (r : ApiRequest)
    (l : list Room) (before after : list Call) (c : Call)
    (H : calls (snd (route env r (fresh l))) = (before ++ c :: after)%list) :
  match c with
  | CallMakeRoomRequest client rq =>
      request_client rq = client /\
      getClient env (request_token r) (request_room r) = inr client /\
      In (CallGetClient (request_token r) (request_room r)) before
  | CallProcessRequest _ rq =>
      getClient env (request_token r) (request_room r)
      = inr (request_client rq) /\
      In (CallGetClient (request_token r) (request_room r)) before
  | _ => True
  end.
Proof.
  rewrite route_calls in H. revert before after c H.
  destruct r as [req|req|req|req|req|req]; simpl handler_of; unfold fresh;
    simpl request_token; simpl request_room.
  - simpl. intros pre post call H. split_calls H.
  - unfold createRoom. run.
    branch; intros pre post call H; simpl in H; split_calls H; exact I.
  - unfold patchRoom. run.
    branch; intros pre post call H; simpl in H; split_calls H;
      try exact I; simpl; auto.
  - unfold undoEvent. run.
    branch; intros pre post call H; simpl in H; split_calls H;
      try exact I; simpl; auto.
  - unfold addVote, vote. run.
    branch; intros pre post call H; simpl in H; split_calls H;
      try exact I; simpl; auto.
  - unfold removeVote, vote. run.
    branch; intros pre post call H; simpl in H; split_calls H;
      try exact I; simpl; auto.
Qed.

Lemma requests_name_the_resolved_client_witness :
  request_client (UndoReq (Some "t0k3n") "client-1" None) = "client-1" /\
  getClient (Examples.calm None) (Some "t0k3n") "lounge" = inr "client-1" /\
  In (CallGetClient (Some "t0k3n") "lounge")
     [CallGetClient (Some "t0k3n") "lounge"].
Proof.
  apply (requests_name_the_resolved_client (Examples.calm None)
           (PostUndo (Examples.request None None "lounge"
                        {| ub_data := Some None |}))
           [Examples.lounge]
           [CallGetClient (Some "t0k3n") "lounge"] []
           (CallMakeRoomRequest "client-1"
              (UndoReq (Some "t0k3n") "client-1" None))).
  reflexivity.
Defined.

(** ** The enums and the lists of valid values *)

(** No member of the two enums is missing from the lists the handlers
    check against: a settings request whose visibility and queue mode
    are values of [Visibility] and [QueueMode] passes the checks and
    goes on to the room manager. *)
Theorem every_enum_member_accepted (env : Env) (req : Req PatchBody)
    (w : World) (v : Visibility) (q : QueueMode)
    (Hv : pb_visibility (reqbody req) = Some (visibility_value v))
    (Hq : pb_queueMode (reqbody req) = Some (queueMode_value q)) :
  In (visibility_value v) VALID_ROOM_VISIBILITY /\
  In (queueMode_value q) VALID_ROOM_QUEUE_MODE /\
  In (CallGetRoom (param_name req)) (calls (snd (patchRoom env req w))).
Proof.
  split; [destruct v; simpl; tauto|]. split; [destruct q; simpl; tauto|].
  unfold patchRoom. rewrite Hv, Hq.
  destruct v, q; simpl; run; branch;
    rewrite <- ?app_assoc; apply in_or_app; right; simpl; auto.
Qed.

Lemma every_enum_member_accepted_witness :
  In (CallGetRoom "lounge")
     (calls (snd (patchRoom (Examples.calm None)
                    (Examples.request None None "lounge"
                       {| pb_title := None; pb_description := None;
                          pb_visibility := Some "unlisted";
                          pb_queueMode := Some "dj";
                          pb_permissions := None; pb_grants := None;
                          pb_claim := false |})
                    (Examples.world_of [Examples.lounge])))).
Proof.
  exact (proj2 (proj2 (every_enum_member_accepted (Examples.calm None)
                         (Examples.request None None "lounge"
                            {| pb_title := None; pb_description := None;
                               pb_visibility := Some "unlisted";
                               pb_queueMode := Some "dj";
                               pb_permissions := None; pb_grants := None;
                               pb_claim := false |})
                         (Examples.world_of [Examples.lounge])
                         Unlisted Dj eq_refl eq_refl))).
Defined.

(** The values of each enum are pairwise distinct, and the lists of
    valid values hold nothing but them. *)
Theorem enum_values (s : string) :
  (In s VALID_ROOM_VISIBILITY <-> exists v, visibility_value v = s) /\
  (In s VALID_ROOM_QUEUE_MODE <-> exists q, queueMode_value q = s) /\
  (forall v v', visibility_value v = visibility_value v' -> v = v') /\
  (forall q q', queueMode_value q = queueMode_value q' -> q = q').
Proof.
  split; [|split; [|split]].
  - simpl. split.
    + intros [H|[H|[H|[]]]]; subst;
        [exists Public|exists Unlisted|exists Private]; reflexivity.
    + intros [[] <-]; simpl; tauto.
  - simpl. split.
    + intros [H|[H|[H|[H|[]]]]]; subst;
        [exists Manual|exists Vote|exists Loop|exists Dj]; reflexivity.
    + intros [[] <-]; simpl; tauto.
  - intros [] []; simpl; intros H; solve [reflexivity|discriminate H].
  - intros [] []; simpl; intros H; solve [reflexivity|discriminate H].
Qed.

(** ** What is sent and what is stored *)

(** Every property of the room state is sent to clients or stored,
    except the votes, which are neither; the owner, the user roles and
    the grants are stored and never sent; [hasOwner], the vote counts
    and the users are sent and never stored. *)
Theorem sent_or_stored (k : RoomStateKey) :
  (syncable k = false /\ storable k = false <-> k = Kvotes) /\
  (syncable k = false /\ storable k = true <->
     k = Kowner \/ k = KuserRoles \/ k = Kgrants) /\
  (syncable k = true /\ storable k = false <->
     k = KhasOwner \/ k = KvoteCounts \/ k = Kusers).
Proof.
  destruct k; cbv; intuition (try discriminate; try reflexivity).
Qed.


(** * Properties of the user manager *)

Import UserManager.

(** ** Looking users up *)

Section Users.
Variable findOne : Where -> Settled (option UserRow).
Variable verify : string -> string -> Settled VerifyResult.
Variable hash : string -> Settled string.
Variable save : UserRow -> option string.

(** What [getUser] makes of the answer of the store. *)
Lemma getUser_by_email (e : string) (id : option Z) :
  e <> "" ->
  getUser findOne (Some e) id =
  match findOne (ByEmail e) with
  | Rejected m => Rejected m
  | Resolved None => Rejected "User not found"
  | Resolved (Some user) => Resolved user
  end.
Proof.
  intros H. unfold getUser. simpl.
  destruct (String.eqb_spec e ""); [contradiction|reflexivity].
Qed.

Lemma getUser_by_id (email : option string) (i : Z) :
  truthy_str email = false -> i <> 0 ->
  getUser findOne email (Some i) =
  match findOne (ById i) with
  | Rejected m => Rejected m
  | Resolved None => Rejected "User not found"
  | Resolved (Some user) => Resolved user
  end.
Proof.
  intros He Hi. unfold getUser. rewrite He. simpl.
  destruct (Z.eqb_spec i 0); [contradiction|reflexivity].
Qed.

(** [getUser] queries the store by email whenever an email that is not
    empty is given, whatever id comes with it, and by id when there is
    no email and the id is not 0; what it answers is what the store
    answers to that one query: the row found, [User not found] when the
    store finds none, the error of the store when it rejects.  It never
    asks with an empty clause; and an id of 0 counts as no id: with no
    email it is refused without asking the store. *)
Theorem getUser_clause (email : option string) (id : option Z) :
  (forall e, email = Some e -> e <> "" ->
     getUser findOne email id =
     match findOne (ByEmail e) with
     | Rejected m => Rejected m
     | Resolved None => Rejected "User not found"
     | Resolved (Some user) => Resolved user
     end) /\
  (forall i, truthy_str email = false -> id = Some i -> i <> 0 ->
     getUser findOne email id =
     match findOne (ById i) with
     | Rejected m => Rejected m
     | Resolved None => Rejected "User not found"
     | Resolved (Some user) => Resolved user
     end) /\
  (truthy_str email = false -> truthy_id id = false ->
     getUser findOne email id = Rejected "Invalid parameters to find user") /\
  (truthy_str email = true ->
     getUser findOne email id = getUser findOne email None) /\
  (forall other : Where -> Settled (option UserRow),
     (forall e, other (ByEmail e) = findOne (ByEmail e)) ->
     (forall i, other (ById i) = findOne (ById i)) ->
     getUser other email id = getUser findOne email id) /\
  getUser findOne None (Some 0) = Rejected "Invalid parameters to find user" /\
  getUser findOne None None = Rejected "Invalid parameters to find user".
Proof.
  split; [|split; [|split; [|split; [|split; [|split; reflexivity]]]]].
  - intros e -> He. now apply getUser_by_email.
  - intros i He -> Hi. now apply getUser_by_id.
  - intros He Hi. unfold getUser. now rewrite He, Hi.
  - intros H. unfold getUser. rewrite H. reflexivity.
  - intros other He Hi. unfold getUser.
    destruct (truthy_str email); simpl; [now rewrite He|].
    destruct (truthy_id id); simpl; [now rewrite Hi|reflexivity].
Qed.

(** Over a store that answers a query with a row that matches it, the
    user [getUser] resolves has the email asked for, or, when no email
    was given, the id asked for. *)
Theorem getUser_matches (email : option string) (id : option Z) (u : UserRow)
    (Hemail : forall e r, findOne (ByEmail e) = Resolved (Some r) ->
                          u_email r = e)
    (Hid : forall i r, findOne (ById i) = Resolved (Some r) -> u_id r = i)
    (H : getUser findOne email id = Resolved u) :
  match email with
  | Some e => if (e =? "")%string then id = Some (u_id u) else u_email u = e
  | None => id = Some (u_id u)
  end.
Proof.
  revert H. unfold getUser.
  destruct email as [e|]; simpl.
  - destruct (String.eqb_spec e "") as [->|Hne]; simpl.
    + destruct id as [i|]; simpl; [|discriminate].
      destruct (Z.eqb_spec i 0); simpl; [discriminate|].
      destruct (findOne (ById i)) as [[r|]|m] eqn:E; try discriminate.
      intros H. inversion H; subst. now rewrite (Hid _ _ E).
    + destruct (findOne (ByEmail e)) as [[r|]|m] eqn:E; try discriminate.
      intros H. inversion H; subst. now apply Hemail.
  - destruct id as [i|]; simpl; [|discriminate].
    destruct (Z.eqb_spec i 0); simpl; [discriminate|].
    destruct (findOne (ById i)) as [[r|]|m] eqn:E; try discriminate.
    intros H. inversion H; subst. now rewrite (Hid _ _ E).
Qed.

(** ** Authentication *)

(** Whatever goes wrong in [authCallback], the error handed to [done]
    has one and the same message: an unknown email, a failing store and
    a wrong password cannot be told apart; no user is passed with an
    error and nothing is saved. *)
Theorem authCallback_one_error (email : option string) (password : string)
    (d : Done) (m : string)
    (H : called (authCallback findOne verify hash save email password)
         = Some d)
    (Hm : done_err d = Some m) :
  m = "Email or password is incorrect." /\
  saved (authCallback findOne verify hash save email password) = [] /\
  failed (authCallback findOne verify hash save email password) = None /\
  (done_user d = NotPassed \/ done_user d = PassedFalse).
Proof.
  revert H. unfold authCallback.
  destruct (getUser findOne email None) as [row|msg].
  - destruct (verify _ _) as [[]|msg]; simpl;
      try destruct (hash _) as [h|msg]; simpl;
      try destruct (save _) as [msg|]; simpl;
      intros H; inversion H; subst; simpl in *;
      try discriminate; inversion Hm; auto.
  - simpl. intros H; inversion H; subst; simpl in *. inversion Hm. auto.
Qed.

(** [authCallback] passes a user to [done] only when the store has a
    user for the email and the password verifies against the stored
    salt and hash; the user passed is that one, unchanged, or, when the
    hash needs refreshing, that one with the new hash, which is then
    the one row saved. *)
Theorem authCallback_user (email : option string) (password : string)
    (d : Done) (u : UserRow)
    (H : called (authCallback findOne verify hash save email password)
         = Some d)
    (Hu : done_user d = PassedUser u) :
  done_err d = None /\
  failed (authCallback findOne verify hash save email password) = None /\
  exists row,
    getUser findOne email None = Resolved row /\
    ((verify (u_salt row ++ password) (u_hash row) = Resolved VALID /\
      u = row /\
      saved (authCallback findOne verify hash save email password) = []) \/
     (verify (u_salt row ++ password) (u_hash row)
        = Resolved VALID_NEEDS_REHASH /\
      (exists h, hash (u_salt row ++ password) = Resolved h /\
                 u = with_hash h row) /\
      save u = None /\
      saved (authCallback findOne verify hash save email password) = [u])).
Proof.
  revert H. unfold authCallback.
  destruct (getUser findOne email None) as [row|msg].
  - destruct (verify _ _) as [[]|msg] eqn:V; simpl;
      try destruct (hash _) as [h|msg] eqn:Hh; simpl;
      try destruct (save _) as [msg|] eqn:Hs; simpl;
      intros H; inversion H; subst; simpl in *;
      try discriminate; inversion Hu; subst;
      (split; [reflexivity|]); (split; [reflexivity|]);
      eexists; (split; [reflexivity|]); eauto 7.
  - simpl. intros H; inversion H; subst; simpl in *. discriminate.
Qed.

(** [done] is called at most once.  It is not called at all exactly
    when the user is found and then [pwd.verify] rejects or answers
    with a result the switch does not list, or the hash needs
    refreshing and [pwd.hash] or [user.save()] rejects: these three are
    awaited outside any [try], so the promise of [authCallback] rejects
    with their error, and it rejects in no other case; nothing is saved
    then. *)
Theorem authCallback_done (email : option string) (password : string) :
  let out := authCallback findOne verify hash save email password in
  (called out = None <->
   exists row,
     getUser findOne email None = Resolved row /\
     ((exists m, verify (u_salt row ++ password) (u_hash row) = Rejected m) \/
      verify (u_salt row ++ password) (u_hash row) = Resolved OtherResult \/
      (verify (u_salt row ++ password) (u_hash row)
         = Resolved VALID_NEEDS_REHASH /\
       ((exists m, hash (u_salt row ++ password) = Rejected m) \/
        exists h m, hash (u_salt row ++ password) = Resolved h /\
                    save (with_hash h row) = Some m)))) /\
  (forall m, failed out = Some m <->
   exists row,
     getUser findOne email None = Resolved row /\
     (verify (u_salt row ++ password) (u_hash row) = Rejected m \/
      (verify (u_salt row ++ password) (u_hash row)
         = Resolved VALID_NEEDS_REHASH /\
       (hash (u_salt row ++ password) = Rejected m \/
        exists h, hash (u_salt row ++ password) = Resolved h /\
                  save (with_hash h row) = Some m)))) /\
  (failed out <> None -> called out = None /\ saved out = []).
Proof.
  cbv zeta. unfold authCallback.
  destruct (getUser findOne email None) as [row|msg]; simpl.
  2:{ split; [|split].
      - split; [discriminate|]. intros (r & E & _). discriminate.
      - intros m. split; [discriminate|]. intros (r & E & _). discriminate.
      - intros H. now contradiction H. }
  destruct (verify _ _) as [[]|msg] eqn:V; simpl;
    try destruct (hash _) as [h|msg'] eqn:Hh; simpl;
    try destruct (save _) as [msg''|] eqn:Hs; simpl;
    (split; [|split]);
    try (intros H; solve [now contradiction H | auto]);
    try intros m; (split; [try discriminate|]).
  all: try (intros (r & E & HH); inversion E; subst r;
            rewrite ?V, ?Hh in HH;
            repeat match goal with
              | H : _ \/ _ |- _ => destruct H
              | H : _ /\ _ |- _ => destruct H
              | H : exists _, _ |- _ => destruct H
              | H : Resolved _ = Resolved _ |- _ =>
                  inversion H; subst; clear H
              | H : Rejected _ = Rejected _ |- _ =>
                  inversion H; subst; clear H
              end;
            congruence).
  all: try (intros H; try (inversion H; subst); exists row;
            split; [reflexivity|]; eauto 9).
Qed.

(** ** Sessions *)

(** What [serializeUser] stores brings the user back through
    [deserializeUser] when the store finds the user under its id,
    unless that id is 0, which [getUser] takes for no id at all. *)
Theorem deserialize_serialize (u : UserRow)
    (H : findOne (ById (u_id u)) = Resolved (Some u)) :
  deserializeUser findOne (Some (serializeUser u)) =
  if u_id u =? 0 then (Some "Invalid parameters to find user", None)
  else (None, Some u).
Proof.
  unfold deserializeUser, serializeUser, getUser. simpl.
  destruct (u_id u =? 0); simpl; [reflexivity|]. now rewrite H.
Qed.

End Users.

Lemma getUser_matches_witness :
  u_email UserCases.bob = "bob@example.org".
Proof.
  refine (getUser_matches UserCases.table (Some "bob@example.org") (Some 99)
            UserCases.bob _ _ _).
  - intros e r. simpl.
    destruct (String.eqb_spec e "bob@example.org"); intros H; inversion H.
    subst. reflexivity.
  - intros i r. simpl.
    destruct (Z.eqb_spec i 3); intros H; inversion H. subst. reflexivity.
  - reflexivity.
Defined.

Lemma authCallback_one_error_witness :
  "Email or password is incorrect." = "Email or password is incorrect." /\
  saved (authCallback UserCases.table UserCases.check UserCases.rehash
           UserCases.written (Some "bob@example.org") "letmein") = [] /\
  (PassedFalse = NotPassed \/ PassedFalse = PassedFalse).
Proof.
  destruct (authCallback_one_error UserCases.table UserCases.check
              UserCases.rehash UserCases.written
              (Some "bob@example.org") "letmein"
              {| done_err := Some "Email or password is incorrect.";
                 done_user := PassedFalse |}
              "Email or password is incorrect." eq_refl eq_refl)
    as (Hm & Hs & _ & Hd).
  exact (conj Hm (conj Hs Hd)).
Defined.

Lemma authCallback_user_witness :
  exists row,
    getUser UserCases.table (Some "bob@example.org") None = Resolved row /\
    ((UserCases.outdated (u_salt row ++ "s3cret") (u_hash row)
        = Resolved VALID /\
      with_hash (UserCases.digest "NaCls3cret") UserCases.bob = row /\
      saved (authCallback UserCases.table UserCases.outdated
               UserCases.rehash UserCases.written
               (Some "bob@example.org") "s3cret") = []) \/
     (UserCases.outdated (u_salt row ++ "s3cret") (u_hash row)
        = Resolved VALID_NEEDS_REHASH /\
      (exists h, UserCases.rehash (u_salt row ++ "s3cret") = Resolved h /\
                 with_hash (UserCases.digest "NaCls3cret") UserCases.bob
                 = with_hash h row) /\
      UserCases.written
        (with_hash (UserCases.digest "NaCls3cret") UserCases.bob) = None /\
      saved (authCallback UserCases.table UserCases.outdated
               UserCases.rehash UserCases.written
               (Some "bob@example.org") "s3cret")
      = [with_hash (UserCases.digest "NaCls3cret") UserCases.bob])).
Proof.
  exact (proj2 (proj2
           (authCallback_user UserCases.table UserCases.outdated
              UserCases.rehash UserCases.written
              (Some "bob@example.org") "s3cret"
              {| done_err := None;
                 done_user :=
                   PassedUser (with_hash (UserCases.digest "NaCls3cret")
                                 UserCases.bob) |}
              (with_hash (UserCases.digest "NaCls3cret") UserCases.bob)
              eq_refl eq_refl))).
Defined.

Lemma getUser_clause_witness :
  getUser UserCases.table (Some "bob@example.org") (Some 99)
  = Resolved UserCases.bob.
Proof.
  destruct (getUser_clause UserCases.table (Some "bob@example.org") (Some 99))
    as (H & _).
  apply (H "bob@example.org"); [reflexivity|discriminate].
Defined.

Lemma authCallback_done_witness :
  let out :=
    authCallback UserCases.table UserCases.outdated UserCases.rehash
      UserCases.down (Some "bob@example.org") "s3cret" in
  called out = None /\ failed out = Some "SequelizeConnectionError".
Proof.
  destruct (authCallback_done UserCases.table UserCases.outdated
              UserCases.rehash UserCases.down
              (Some "bob@example.org") "s3cret") as (Hc & Hf & _).
  split.
  - apply Hc. exists UserCases.bob. split; [reflexivity|].
    right; right. split; [reflexivity|]. right.
    exists (UserCases.digest "NaCls3cret"), "SequelizeConnectionError".
    split; reflexivity.
  - apply Hf. exists UserCases.bob. split; [reflexivity|].
    right. split; [reflexivity|]. right.
    exists (UserCases.digest "NaCls3cret"). split; reflexivity.
Defined.

Lemma deserialize_serialize_witness :
  deserializeUser UserCases.table (Some (serializeUser UserCases.bob)) =
  (None, Some UserCases.bob).
Proof.
  exact (deserialize_serialize UserCases.table UserCases.bob eq_refl).
Defined.

(** ** Logging in and out of the rooms *)

Lemma assign_user_found (sid : string) (v : option UserRow) (l : list Client) :
  snd (assign_user sid v l) = true ->
  exists before c rest,
    l = (before ++ c :: rest)%list /\ session_id c = sid /\
    (forall x, In x before -> session_id x <> sid) /\
    fst (assign_user sid v l) =
      (before ++ {| session_id := sid; client_user := v |} :: rest)%list.
Proof.
  induction l as [|x l IH]; simpl; [discriminate|].
  destruct (String.eqb_spec (session_id x) sid) as [E|E]; simpl.
  - intros _. exists [], x, l. simpl. rewrite E.
    repeat split; auto; intros y [].
  - destruct (assign_user sid v l) as [l' found]. simpl in *. intros F.
    destruct (IH F) as (before & c & rest & -> & Hc & Hn & ->).
    exists (x :: before), c, rest. repeat split; auto.
    intros y [<-|Hy]; [assumption|now apply Hn].
Qed.

Lemma assign_user_not_found (sid : string) (v : option UserRow)
    (l : list Client) :
  snd (assign_user sid v l) = false ->
  (forall x, In x l -> session_id x <> sid) /\ fst (assign_user sid v l) = l.
Proof.
  induction l as [|x l IH]; simpl; [intros _; split; [intros y []|reflexivity]|].
  destruct (String.eqb_spec (session_id x) sid) as [E|E]; simpl;
    [discriminate|].
  destruct (assign_user sid v l) as [l' found]. simpl in *. intros F.
  destruct (IH F) as (Hn & ->). split; [|reflexivity].
  intros y [<-|Hy]; [assumption|now apply Hn].
Qed.

(** In every room, [onUserLogIn] logs in the first client of the
    session and no other: the clients before and after it, a second
    connection of the same session among them, are as they were; the
    room is marked for a users update exactly when it had such a
    client; rooms without one are untouched. *)
Theorem onUserLogIn_first_client_only (user : UserRow) (sid : string)
    (rooms : list RoomJs) (i : nat) (room : RoomJs)
    (H : nth_error rooms i = Some room) :
  exists room',
    nth_error (onUserLogIn user sid rooms) i = Some room' /\
    (((forall x, In x (clients room) -> session_id x <> sid) /\
      room' = room) \/
     (exists before c rest,
        clients room = (before ++ c :: rest)%list /\
        session_id c = sid /\
        (forall x, In x before -> session_id x <> sid) /\
        clients room' =
          (before ++ {| session_id := sid; client_user := Some user |}
                  :: rest)%list /\
        dirtyProps room' = (dirtyProps room ++ ["users"])%list)).
Proof.
  unfold onUserLogIn. exists (assign_in_room sid (Some user) room).
  split; [now apply map_nth_error|].
  unfold assign_in_room.
  destruct (assign_user sid (Some user) (clients room)) as [cs found] eqn:E.
  destruct found.
  - right.
    destruct (assign_user_found sid (Some user) (clients room))
      as (before & c & rest & Hl & Hc & Hn & Hf); [now rewrite E|].
    rewrite E in Hf. simpl in Hf. subst cs.
    exists before, c, rest. simpl. auto.
  - left.
    destruct (assign_user_not_found sid (Some user) (clients room))
      as (Hn & _); [now rewrite E|]. auto.
Qed.

Lemma onUserLogIn_first_client_only_witness :
  exists room',
    nth_error (onUserLogIn UserCases.bob "s2"
                 [UserCases.elsewhere; UserCases.two_tabs]) 1 = Some room' /\
    (((forall x, In x (clients UserCases.two_tabs) -> session_id x <> "s2") /\
      room' = UserCases.two_tabs) \/
     (exists before c rest,
        clients UserCases.two_tabs = (before ++ c :: rest)%list /\
        session_id c = "s2" /\
        (forall x, In x before -> session_id x <> "s2") /\
        clients room' =
          (before ++ {| session_id := "s2";
                        client_user := Some UserCases.bob |} :: rest)%list /\
        dirtyProps room' = (dirtyProps UserCases.two_tabs ++ ["users"])%list)).
Proof.
  exact (onUserLogIn_first_client_only UserCases.bob "s2"
           [UserCases.elsewhere; UserCases.two_tabs] 1 UserCases.two_tabs
           eq_refl).
Defined.

Lemma assign_user_undo (sid : string) (u : UserRow) (l : list Client) :
  (forall x, In x l -> session_id x = sid -> client_user x = None) ->
  fst (assign_user sid None (fst (assign_user sid (Some u) l))) = l.
Proof.
  induction l as [|x l IH]; simpl; intros Hn; [reflexivity|].
  destruct (String.eqb_spec (session_id x) sid) as [E|E]; simpl.
  - rewrite E, String.eqb_refl. simpl.
    destruct x as [s cu]. simpl in *. subst s.
    assert (Hcu : cu = None)
      by exact (Hn {| session_id := sid; client_user := cu |}
                  (or_introl eq_refl) eq_refl).
    now rewrite Hcu.
  - destruct (assign_user sid (Some u) l) as [l' found] eqn:El. simpl in *.
    destruct (String.eqb_spec (session_id x) sid); [contradiction|].
    specialize (IH (fun y Hy => Hn y (or_intror Hy))).
    destruct (assign_user sid None l') as [l'' found']. simpl in *.
    now rewrite IH.
Qed.

Lemma assign_in_room_clients (sid : string) (v : option UserRow)
    (room : RoomJs) :
  clients (assign_in_room sid v room) = fst (assign_user sid v (clients room)).
Proof.
  unfold assign_in_room.
  destruct (assign_user sid v (clients room)) as [cs found] eqn:E.
  destruct found; simpl; [reflexivity|].
  destruct (assign_user_not_found sid v (clients room)) as (_ & Hf);
    [now rewrite E|].
  rewrite E in Hf. simpl in Hf. now subst.
Qed.

(** Logging in and then out with the same session brings every room's
    clients back to what they were, when no client of that session was
    logged in before; and the name generated at log-out is what the
    session is given as username. *)
Theorem login_then_logout (generated : string) (user : UserRow)
    (sid : string) (rooms : list RoomJs)
    (H : forall room x,
           In room rooms -> In x (clients room) -> session_id x = sid ->
           client_user x = None) :
  map clients
    (fst (onUserLogOut generated user sid (onUserLogIn user sid rooms)))
  = map clients rooms /\
  snd (onUserLogOut generated user sid (onUserLogIn user sid rooms))
  = generated.
Proof.
  split; [|reflexivity].
  unfold onUserLogOut, onUserLogIn. simpl. rewrite !map_map.
  apply map_ext_in. intros room Hin.
  rewrite !assign_in_room_clients.
  apply assign_user_undo. intros x Hx. now apply (H room).
Qed.

Lemma login_then_logout_witness :
  map clients
    (fst (onUserLogOut "calm-otter" UserCases.bob "s2"
            (onUserLogIn UserCases.bob "s2"
               [UserCases.elsewhere; UserCases.two_tabs])))
  = map clients [UserCases.elsewhere; UserCases.two_tabs].
Proof.
  refine (proj1 (login_then_logout "calm-otter" UserCases.bob "s2"
                   [UserCases.elsewhere; UserCases.two_tabs] _)).
  intros room x [<-|[<-|[]]]; simpl; intros Hx;
    repeat (destruct Hx as [<-|Hx]; [reflexivity|]); contradiction.
Defined.
